(** * Penguins: the training data loader
    (utils/dataloaders/dataloader_train.py)

    A shallow embedding of the sample indexer ([make_dataset]), of the dataset
    object ([DatasetFolder], [ImageFolderTrain]) and of the sample accessor
    ([__getitem__]), with the Python built-ins they rely on, and of the
    scoring function [AUC] of src/data_processing/im_vis.py.

    Conventions of the embedding:
    - a Python [str] is a [string]; [str.lower] acts on the ASCII letters;
    - a raised exception is the [Raise] case of [result];
    - the file system walk, the image decoder and the paired transform are
      the program's collaborators and enter as Section variables;
    - a [float32] is its exact rational value (or NaN / an infinity): the
      rounding of the conversion and of the division is not represented. *)

From Stdlib Require Import Bool Arith ZArith QArith List Ascii String Lia.
From Stdlib Require Import Permutation Sorted.
Import ListNotations.

Local Open Scope string_scope.
Local Open Scope list_scope.

(** ** Exceptions *)

Inductive exn : Type :=
| RuntimeError (msg : string)
| IndexError
| ValueError
| IOError
| OtherError (name : string).

Inductive result (A : Type) : Type :=
| Ok (a : A)
| Raise (e : exn).

Arguments Ok {A} a.
Arguments Raise {A} e.

Definition bind {A B : Type} (r : result A) (k : A -> result B) : result B :=
  match r with
  | Ok a => k a
  | Raise e => Raise e
  end.

Notation "x <- r ;; k" := (bind r (fun x => k))
  (at level 61, r at next level, right associativity).
Notation "' p <- r ;; k" := (bind r (fun p => k))
  (at level 61, p pattern, r at next level, right associativity).

(** ** Python built-ins used by the loader *)

Module Py.

(** Letter case.  Text is taken to be ASCII: [lower] and [upper] are
    [str.lower] and [str.upper] on strings whose characters are all below
    128, where the capitals and the small letters lie 32 apart.  Python maps
    letters outside ASCII by the Unicode tables, which are not represented:
    here such characters are left as they are, and statements about letter
    case are made for ASCII names ([isascii]). *)
Definition lower_char (c : ascii) : ascii :=
  let n := nat_of_ascii c in
  if (65 <=? n)%nat && (n <=? 90)%nat then ascii_of_nat (n + 32) else c.

Definition upper_char (c : ascii) : ascii :=
  let n := nat_of_ascii c in
  if (97 <=? n)%nat && (n <=? 122)%nat then ascii_of_nat (n - 32) else c.

Fixpoint map_chars (f : ascii -> ascii) (s : string) : string :=
  match s with
  | EmptyString => EmptyString
  | String c t => String (f c) (map_chars f t)
  end.

(** [s.lower()] and [s.upper()], for ASCII [s] *)
Definition lower (s : string) : string := map_chars lower_char s.
Definition upper (s : string) : string := map_chars upper_char s.

(** [s.isascii()] *)
Fixpoint isascii (s : string) : bool :=
  match s with
  | EmptyString => true
  | String c t => (nat_of_ascii c <? 128)%nat && isascii t
  end.

(** [s.endswith(suffix)]: the last [len(suffix)] characters of [s] are
    [suffix]. *)
Definition endswith (s suffix : string) : bool :=
  let n := String.length s in
  let m := String.length suffix in
  (m <=? n)%nat && (substring (n - m) m s =? suffix).

(** [s.startswith(p)] *)
Definition startswith (s p : string) : bool := prefix p s.

(** [sub in s]: [sub] occurs at some position of [s]. *)
Fixpoint contains (sub s : string) : bool :=
  if prefix sub s then true
  else match s with
       | EmptyString => false
       | String _ t => contains sub t
       end.

(** [s.replace(old, new)] for a non-empty [old]: left to right, every
    non-overlapping occurrence.  [skip] counts the characters of a matched
    occurrence still to be dropped. *)
Fixpoint replace_from (old new s : string) (skip : nat) : string :=
  match s with
  | EmptyString => EmptyString
  | String c t =>
      match skip with
      | S k => replace_from old new t k
      | O =>
          if prefix old s
          then new ++ replace_from old new t (String.length old - 1)
          else String c (replace_from old new t 0)
      end
  end.

(** With an empty [old], Python puts [new] before every character and at
    the end. *)
Fixpoint intersperse (new s : string) : string :=
  match s with
  | EmptyString => new
  | String c t => new ++ String c (intersperse new t)
  end.

Definition replace (old new s : string) : string :=
  match old with
  | EmptyString => intersperse new s
  | String _ _ => replace_from old new s 0
  end.

(** [s.replace(old, new, 1)]: only the first occurrence.  The loader never
    calls it; it is what the specification's wording describes. *)
Fixpoint drop (n : nat) (s : string) : string :=
  match n, s with
  | O, _ => s
  | S _, EmptyString => EmptyString
  | S k, String _ t => drop k t
  end.

Fixpoint replace_first (old new s : string) : string :=
  if prefix old s then new ++ drop (String.length old) s
  else match s with
       | EmptyString => EmptyString
       | String c t => String c (replace_first old new t)
       end.

(** [sep.join(l)] *)
Definition join (sep : string) (l : list string) : string := concat sep l.

(** [any(f(x) for x in l)] *)
Definition any {A : Type} (f : A -> bool) (l : list A) : bool := existsb f l.

(** [l[i]] on a list: a negative index counts from the end. *)
Definition index {A : Type} (l : list A) (i : Z) : result A :=
  let n := Z.of_nat (List.length l) in
  let j := if (i <? 0)%Z then (i + n)%Z else i in
  if (j <? 0)%Z || (n <=? j)%Z then Raise IndexError
  else match nth_error l (Z.to_nat j) with
       | Some a => Ok a
       | None => Raise IndexError
       end.

(** [os.path.join(a, b)] of posixpath. *)
Definition sep : string := "/".

Definition path_join (a b : string) : string :=
  if startswith b sep then b
  else if (a =? "") || endswith a sep then a ++ b
  else a ++ sep ++ b.

(** The line feed of a Python string literal. *)
Definition nl : string := String (ascii_of_nat 10) EmptyString.

(** [s[:-4]]: [s] without its last four characters, empty for a shorter
    [s]. *)
Definition slice_to_minus4 (s : string) : string :=
  substring 0 (String.length s - 4) s.

(** [x in l] for a list of strings. *)
Definition mem (x : string) (l : list string) : bool :=
  existsb (String.eqb x) l.

(** [not l] for a list: true for the empty one. *)
Definition is_empty {A : Type} (l : list A) : bool :=
  match l with
  | [] => true
  | _ :: _ => false
  end.

(** Comparison of lists of strings and of the tuples of [os.walk]:
    lexicographic, a proper prefix first. *)
Fixpoint list_compare (l1 l2 : list string) : comparison :=
  match l1, l2 with
  | [], [] => Eq
  | [], _ :: _ => Lt
  | _ :: _, [] => Gt
  | a :: t1, b :: t2 =>
      match String.compare a b with
      | Eq => list_compare t1 t2
      | c => c
      end
  end.

Definition tuple_compare (a b : string * list string * list string)
    : comparison :=
  let '(r1, d1, f1) := a in
  let '(r2, d2, f2) := b in
  match String.compare r1 r2 with
  | Eq => match list_compare d1 d2 with
          | Eq => list_compare f1 f2
          | c => c
          end
  | c => c
  end.

Definition tuple_ltb (a b : string * list string * list string) : bool :=
  match tuple_compare a b with
  | Lt => true
  | _ => false
  end.

(** [sorted(l)]: ascending and stable; an element goes in front of the
    first one that is not smaller than it. *)
Fixpoint insert_sorted (x : string * list string * list string)
    (l : list (string * list string * list string))
    : list (string * list string * list string) :=
  match l with
  | [] => [x]
  | y :: t => if tuple_ltb y x then y :: insert_sorted x t else x :: y :: t
  end.

Definition sorted (l : list (string * list string * list string))
    : list (string * list string * list string) :=
  fold_right insert_sorted [] l.

End Py.

(** ** Extension filter *)

Definition has_file_allowed_extension (filename : string)
    (extensions : list string) : bool :=
  let filename_lower := Py.lower filename in
  Py.any (fun ext => Py.endswith filename_lower ext) extensions.

Definition IMG_EXTENSIONS : list string :=
  [".jpg"; ".jpeg"; ".png"; ".ppm"; ".bmp"; ".pgm"; ".tif"; ".tiff"; "webp"].

Definition is_image_file (filename : string) : bool :=
  has_file_allowed_extension filename IMG_EXTENSIONS.

(** ** Sample records and discovery *)

(** One entry of [images]: the list [[path_x, path_y, label]]. *)
Record sample_record : Type := mk_record {
  input_path : string;
  target_path : string;
  label : Z
}.

(** The sentinel of a record without target file. *)
Definition EMPTY : string := "empty".

(** One item of [os.walk]: [(root, dirs, files)]. *)
Definition walk_item : Type := (string * list string * list string)%type.

Section Discovery.

(** [os.path.expanduser] and [os.walk] read the environment and the file
    system. *)
Variable expanduser : string -> string.
Variable os_walk : string -> list walk_item.

(** The body of the inner loop: what one [fname] under [root] appends. *)
Definition classify (extensions : list string) (root fname : string)
    : list sample_record :=
  if has_file_allowed_extension fname extensions
     && Py.contains "background" root
  then
    let path_x := Py.path_join root fname in
    [mk_record path_x EMPTY 0]
  else if has_file_allowed_extension fname extensions
          && Py.contains "x" root
  then
    if Py.contains "True" root then
      let path_x := Py.path_join root fname in
      let path_y := Py.replace "x" "y" path_x in
      [mk_record path_x path_y 2]
    else
      let path_x := Py.path_join root fname in
      let path_y := Py.replace "x" "y" path_x in
      [mk_record path_x path_y 1]
  else [].

Definition make_dataset (dir : string) (extensions : list string)
    : list sample_record :=
  let dir := expanduser dir in
  flat_map
    (fun item : walk_item =>
       let '(root, _, files) := item in
       flat_map (classify extensions root) files)
    (os_walk dir).

End Discovery.

(** ** Images, arrays and the area statistic *)

(** A decoded image: mode [L] (one channel) or mode [RGB] (three). *)
Inductive image : Type :=
| ImgL (px : list (list Z))
| ImgRGB (px : list (list (Z * Z * Z))).

Inductive mode : Type := L | RGB.

Definition mode_of (im : image) : mode :=
  match im with
  | ImgL _ => L
  | ImgRGB _ => RGB
  end.

(** [np.array(im)]: shape (H, W) for mode [L], (H, W, 3) for mode [RGB]. *)
Inductive ndarray : Type :=
| A2 (rows : list (list Z))
| A3 (rows : list (list (list Z))).

Definition np_array (im : image) : ndarray :=
  match im with
  | ImgL px => A2 px
  | ImgRGB px => A3 (map (map (fun p => let '(r, g, b) := p in [r; g; b])) px)
  end.

Fixpoint enumerate_from {A : Type} (i : Z) (l : list A) : list (Z * A) :=
  match l with
  | [] => []
  | a :: t => (i, a) :: enumerate_from (i + 1) t
  end.

Definition enumerate {A : Type} (l : list A) : list (Z * A) :=
  enumerate_from 0 l.

(** The index vectors of the non-zero entries, in row-major order. *)
Definition nonzero1 (v : list Z) : list (list Z) :=
  flat_map (fun '(k, x) => if (x =? 0)%Z then [] else [[k]]) (enumerate v).

Definition nonzero2 (rows : list (list Z)) : list (list Z) :=
  flat_map (fun '(j, v) => map (cons j) (nonzero1 v)) (enumerate rows).

Definition nonzero3 (rows : list (list (list Z))) : list (list Z) :=
  flat_map (fun '(i, r) => map (cons i) (nonzero2 r)) (enumerate rows).

Definition positions (a : ndarray) : list (list Z) :=
  match a with
  | A2 rows => nonzero2 rows
  | A3 rows => nonzero3 rows
  end.

Definition ndim (a : ndarray) : nat :=
  match a with
  | A2 _ => 2
  | A3 _ => 3
  end.

(** [a.nonzero()]: a tuple with one index array per dimension. *)
Definition nonzero (a : ndarray) : list (list Z) :=
  map (fun d => map (fun p => nth d p 0%Z) (positions a)) (seq 0 (ndim a)).

(** [np.sum] of a tuple of integer arrays: every element is added up. *)
Definition sum_list (l : list Z) : Z := fold_right Z.add 0%Z l.

Definition np_sum (t : list (list Z)) : Z := sum_list (List.concat t).

(** [a.size]: the number of elements. *)
Definition size (a : ndarray) : Z :=
  match a with
  | A2 rows => Z.of_nat (List.length (List.concat rows))
  | A3 rows => Z.of_nat (List.length (List.concat (List.concat rows)))
  end.

(** A [float32] value, rounding left out. *)
Inductive float32 : Type :=
| NaN
| Inf (negative : bool)
| Fin (q : Q).

(** [np.float32(z)] and [x.astype(np.float32)] of an integer. *)
Definition f32_of_Z (z : Z) : float32 := Fin (inject_Z z).

(** [x / n] of a float32 scalar by an integer; NumPy warns on a zero
    divisor and goes on with NaN or an infinity. *)
Definition f32_div (x : float32) (n : Z) : float32 :=
  match x with
  | NaN => NaN
  | Inf s => Inf (xorb s (n <? 0)%Z)
  | Fin q =>
      if (n =? 0)%Z then
        if (Qnum q =? 0)%Z then NaN else Inf (Qnum q <? 0)%Z
      else Fin (q / inject_Z n)
  end.

(** [np.sum(np.array(target).nonzero()).astype(np.float32)
     / np.array(target).size] *)
Definition area_of (target : image) : float32 :=
  f32_div (f32_of_Z (np_sum (nonzero (np_array target))))
          (size (np_array target)).

(** [Image.fromarray(np.zeros([p, p], dtype=np.uint8))]: NumPy refuses a
    negative dimension. *)
Definition np_zeros (p : Z) : result (list (list Z)) :=
  if (p <? 0)%Z then Raise ValueError
  else Ok (repeat (repeat 0%Z (Z.to_nat p)) (Z.to_nat p)).

Definition blank_target (p : Z) : result image :=
  a <- np_zeros p ;; Ok (ImgL a).

(** ** The dataset object *)

Definition loader_t : Type := string -> result image.
Definition transform_t : Type := image -> image -> result (image * image).

Record DatasetFolder : Type := mk_DatasetFolder {
  root : string;
  loader : loader_t;
  extensions : list string;
  classes : list Z;
  samples : list (string * string);
  patch_size : Z;
  transform : option transform_t
}.

(** A returned sample: [(sample, target, area, label)]. *)
Definition item : Type := (image * image * float32 * Z)%type.

Section Dataset.

Variable expanduser : string -> string.
Variable os_walk : string -> list walk_item.

(** [DatasetFolder.__init__] *)
Definition DatasetFolder_init (root : string) (loader : loader_t)
    (extensions : list string) (patch_size : Z)
    (transform : option transform_t) : result DatasetFolder :=
  let samples := make_dataset expanduser os_walk root extensions in
  if (List.length samples =? 0)%nat then
    Raise (RuntimeError
             ("Found 0 files in subfolders of: " ++ root ++ Py.nl
              ++ "Supported extensions are: " ++ Py.join "," extensions))
  else
    Ok {| root := root;
          loader := loader;
          extensions := extensions;
          classes := map (fun ele => label ele) samples;
          samples := map (fun ele => (input_path ele, target_path ele))
                         samples;
          patch_size := patch_size;
          transform := transform |}.

(** [DatasetFolder.__getitem__] *)
Definition getitem (self : DatasetFolder) (index : Z) : result item :=
  '(path_x, path_y) <- Py.index (samples self) index ;;
  sample <- loader self path_x ;;
  label <- Py.index (classes self) index ;;
  '(target, area) <-
    (if negb (path_y =? "empty") then
       target <- loader self path_y ;;
       Ok (target, area_of target)
     else
       target <- blank_target (patch_size self) ;;
       Ok (target, f32_of_Z 0)) ;;
  match transform self with
  | Some tr =>
      '(sample, target) <- tr sample target ;;
      let area := if negb (label =? 0)%Z then area_of target else area in
      Ok (sample, target, area, label)
  | None => Ok (sample, target, area, label)
  end.

(** [DatasetFolder.__len__] *)
Definition len (self : DatasetFolder) : nat := List.length (samples self).

(** *** The default loader *)

(** What [Image.open] hands back before conversion. *)
Variable rawimage : Type.
(** [open(path, 'rb')] followed by [Image.open]. *)
Variable open_image : string -> result rawimage.
(** [img.convert('L')] and [img.convert('RGB')]: Pillow reads the pixel
    data at this point, so a damaged file may still raise here. *)
Variable convert_L : rawimage -> result (list (list Z)).
Variable convert_RGB : rawimage -> result (list (list (Z * Z * Z))).
(** [accimage.Image(path)] and [torchvision.get_image_backend()]. *)
Variable accimage_Image : string -> result image.
Variable get_image_backend : string.

Definition pil_loader (path : string) : result image :=
  img <- open_image path ;;
  if Py.contains "y" path then
    px <- convert_L img ;; Ok (ImgL px)
  else
    px <- convert_RGB img ;; Ok (ImgRGB px).

Definition accimage_loader (path : string) : result image :=
  match accimage_Image path with
  | Ok im => Ok im
  | Raise IOError => pil_loader path
  | Raise e => Raise e
  end.

Definition default_loader (path : string) : result image :=
  if get_image_backend =? "accimage" then accimage_loader path
  else pil_loader path.

(** [ImageFolderTrain.__init__]; [loader] defaults to [default_loader]. *)
Definition ImageFolderTrain_init (root : string) (patch_size : Z)
    (transform : option transform_t) (loader : loader_t)
    : result DatasetFolder :=
  DatasetFolder_init root loader IMG_EXTENSIONS patch_size transform.

End Dataset.

(** ** Scoring predictions (src/data_processing/im_vis.py) *)

(** A [for] loop whose body may raise and whose results are appended to a
    list: the first exception ends it. *)
Fixpoint for_each {A B : Type} (f : A -> result B) (l : list A)
    : result (list B) :=
  match l with
  | [] => Ok []
  | a :: t =>
      b <- f a ;;
      bs <- for_each f t ;;
      Ok (b :: bs)
  end.

Section Evaluation.

(** The file system, [scipy.misc.imread], [ndarray.ravel] and the two
    functions of [sklearn.metrics]. *)
Variable os_walk : string -> list walk_item.
Variable array curve score : Type.
Variable imread : string -> result array.
Variable ravel : array -> array.
Variable roc_curve : array -> array -> Z -> result (curve * curve * curve).
Variable auc : curve -> curve -> result score.

(** [AUC(root, name, pimlist)] *)
Definition AUC (root name : string) (pimlist : list string)
    : result (list (string * score)) :=
  let A := (root ++ "/A/")%string in
  let B := (root ++ "/B/")%string in
  let res := (root ++ "/res/" ++ name ++ "/")%string in
  let imlist :=
    flat_map
      (fun item : walk_item =>
         let '(_, _, fnames) := item in
         flat_map
           (fun fname =>
              if Py.endswith fname ".png" then
                if Py.is_empty pimlist
                   || Py.mem (Py.slice_to_minus4 fname) pimlist
                then
                  let pathA := Py.path_join A fname in
                  let pathGT := Py.path_join B fname in
                  let pathmask := Py.path_join res fname in
                  [(pathA, pathGT, pathmask, fname)]
                else []
              else [])
           fnames)
      (Py.sorted (os_walk res)) in
  for_each
    (fun entry : string * string * string * string =>
       let '(pathA, pathB, pathmask, fname) := entry in
       GT <- imread pathB ;;
       mask <- imread pathmask ;;
       ' (fpr, tpr, thresholds) <- roc_curve (ravel GT) (ravel mask) 255 ;;
       auc <- auc fpr tpr ;;
       Ok (fname, auc))
    imlist.

End Evaluation.

(** ** A small data directory

    A concrete file system used to evaluate the definitions: the walk of
    [~/data], four image files and a horizontal flip as paired transform. *)

Module Example.

Definition expanduser (p : string) : string :=
  if prefix "~" p then "/home/u" ++ Py.drop 1 p else p.

Definition os_walk (dir : string) : list walk_item :=
  if dir =? "/home/u/data" then
    [ ("/home/u/data", ["x"; "y"; "background"], ["readme.png"]);
      ("/home/u/data/x", ["True"], ["box.png"]);
      ("/home/u/data/x/True", [], ["img001.PNG"; "notes.txt"]);
      ("/home/u/data/y", ["True"], ["boy.png"]);
      ("/home/u/data/y/True", [], ["img001.PNG"]);
      ("/home/u/data/background", [], ["sky.png"]) ]
  else [].

Definition files : list (string * image) :=
  [ ("/home/u/data/x/box.png",
     ImgRGB [[(10, 20, 30); (0, 0, 0)]; [(0, 0, 0); (40, 50, 60)]]);
    ("/home/u/data/y/boy.png",
     ImgL [[0; 0]; [0; 255]]);
    ("/home/u/data/x/True/img001.PNG",
     ImgRGB [[(1, 2, 3); (4, 5, 6)]]);
    ("/home/u/data/y/True/img001.PNG",
     ImgL [[255; 0]]);
    ("/home/u/data/background/sky.png",
     ImgRGB [[(7, 8, 9)]]) ]%Z.

Fixpoint lookup (path : string) (l : list (string * image))
    : result image :=
  match l with
  | [] => Raise IOError
  | (p, im) :: t => if p =? path then Ok im else lookup path t
  end.

Definition open_image (path : string) : result image := lookup path files.

(** Pillow's conversions between the two modes. *)
Definition luma (p : Z * Z * Z) : Z :=
  let '(r, g, b) := p in
  Z.shiftr (r * 19595 + g * 38470 + b * 7471 + 32768) 16.

Definition convert_L (im : image) : result (list (list Z)) :=
  match im with
  | ImgL px => Ok px
  | ImgRGB px => Ok (map (map luma) px)
  end.

Definition convert_RGB (im : image) : result (list (list (Z * Z * Z))) :=
  match im with
  | ImgL px => Ok (map (map (fun v => (v, v, v))) px)
  | ImgRGB px => Ok px
  end.

Definition accimage_Image (path : string) : result image := Raise IOError.

Definition get_image_backend : string := "PIL".

Definition load : loader_t :=
  default_loader image open_image convert_L convert_RGB accimage_Image
                 get_image_backend.

Definition flip (im : image) : image :=
  match im with
  | ImgL px => ImgL (map (@rev Z) px)
  | ImgRGB px => ImgRGB (map (@rev (Z * Z * Z)) px)
  end.

Definition hflip : transform_t := fun s t => Ok (flip s, flip t).

(** The dataset [ImageFolderTrain("~/data", 2)] builds. *)
Definition ds (tr : option transform_t) : DatasetFolder :=
  {| root := "~/data";
     loader := load;
     extensions := IMG_EXTENSIONS;
     classes := [1; 2; 0]%Z;
     samples := [ ("/home/u/data/x/box.png", "/home/u/data/y/boy.png");
                  ("/home/u/data/x/True/img001.PNG",
                   "/home/u/data/y/True/img001.PNG");
                  ("/home/u/data/background/sky.png", "empty") ];
     patch_size := 2;
     transform := tr |}.

End Example.

(** A result directory with two predictions, one of them in a
    subdirectory, and the matching ground truth. *)

Module ExampleScores.

Definition os_walk (dir : string) : list walk_item :=
  if dir =? "/exp/res/unet/" then
    [ ("/exp/res/unet/sub", [], ["b.png"; "c.PNG"]);
      ("/exp/res/unet/", ["sub"], ["a.png"; "log.txt"]) ]
  else [].

Definition files : list (string * list Z) :=
  [ ("/exp/B/a.png", [0; 255; 255; 0]);
    ("/exp/res/unet/a.png", [10; 200; 250; 30]);
    ("/exp/B/b.png", [255; 0]);
    ("/exp/res/unet/b.png", [90; 80]) ]%Z.

Fixpoint lookup (path : string) (l : list (string * list Z))
    : result (list Z) :=
  match l with
  | [] => Raise IOError
  | (p, a) :: t => if p =? path then Ok a else lookup path t
  end.

Definition imread (path : string) : result (list Z) := lookup path files.

Definition ravel (a : list Z) : list Z := a.

(** Stand-ins for the two library functions: the curve keeps its inputs and
    the score is the number of positions where the mask is at least 128
    exactly when the ground truth is the positive label. *)
Definition roc_curve (gt mask : list Z) (pos_label : Z)
    : result (list Z * list Z * list Z) :=
  if (List.length gt =? List.length mask)%nat
  then Ok (map (fun v => if (v =? pos_label)%Z then 1 else 0)%Z gt, mask, [])
  else Raise ValueError.

Definition auc (fpr tpr : list Z) : result Z :=
  Ok (Z.of_nat
        (List.length
           (filter (fun '(g, m) => Z.eqb g (if (128 <=? m)%Z then 1 else 0)%Z)
                   (combine fpr tpr)))).

(** The same directory walked from the top, as [os.walk] does by
    default. *)
Definition os_walk_topdown (dir : string) : list walk_item :=
  if dir =? "/exp/res/unet/" then
    [ ("/exp/res/unet/", ["sub"], ["a.png"; "log.txt"]);
      ("/exp/res/unet/sub", [], ["b.png"; "c.PNG"]) ]
  else [].

(** [AUC("/exp", "unet", pimlist)] on this directory. *)
Definition run (pimlist : list string) : result (list (string * Z)) :=
  AUC os_walk (list Z) (list Z) Z imread ravel roc_curve auc
      "/exp" "unet" pimlist.

End ExampleScores.

(** ** Notions used in the statements *)

(** What [replace('x', 'y')] does to one character. *)
Definition x_to_y (c : ascii) : ascii :=
  if (c =? "x")%char then "y"%char else c.

(** The entries of the default list that start with a dot. *)
Definition dotted_extensions : list string :=
  [".jpg"; ".jpeg"; ".png"; ".ppm"; ".bmp"; ".pgm"; ".tif"; ".tiff"].

(** What [make_dataset] guarantees of each record. *)
Definition record_ok (r : sample_record) : Prop :=
  (label r = 0%Z /\ target_path r = EMPTY)
  \/ ((label r = 1%Z \/ label r = 2%Z)
      /\ target_path r = Py.replace "x" "y" (input_path r)
      /\ target_path r <> EMPTY).

(** A file that discovery keeps. *)
Definition qualifies (extensions : list string) (root fname : string)
    : bool :=
  has_file_allowed_extension fname extensions
  && (Py.contains "background" root || Py.contains "x" root).

(** The sum, over the non-zero entries, of the coordinates of the entry. *)
Definition index_sum (a : ndarray) : Z :=
  sum_list (map sum_list (positions a)).

Definition index_area (target : image) : float32 :=
  f32_div (f32_of_Z (index_sum (np_array target))) (size (np_array target)).

(** The share of non-zero entries: the statistic the name suggests, which
    the loader does not compute. *)
Definition count_area (target : image) : float32 :=
  f32_div (f32_of_Z (Z.of_nat (List.length (positions (np_array target)))))
          (size (np_array target)).

(** A single-channel image of [h] rows and [w] columns, all zero. *)
Definition zero_image (h w : nat) (im : image) : Prop :=
  exists rows,
    im = ImgL rows
    /\ List.length rows = h
    /\ Forall (fun row => List.length row = w /\ Forall (eq 0%Z) row) rows.

(** The optional paired transform. *)
Definition apply_transform (tr : option transform_t) (s t : image)
    : result (image * image) :=
  match tr with
  | Some f => f s t
  | None => Ok (s, t)
  end.

(** A file that [AUC] scores: the name ends in [.png] and, when a list of
    stems is given, its stem is in the list. *)
Definition selected (pimlist : list string) (fname : string) : bool :=
  Py.endswith fname ".png"
  && (Py.is_empty pimlist || Py.mem (Py.slice_to_minus4 fname) pimlist).

(** The selected names under [dir], directories in sorted order. *)
Definition selected_names (os_walk : string -> list walk_item)
    (dir : string) (pimlist : list string) : list string :=
  flat_map
    (fun item : walk_item =>
       let '(_, _, fnames) := item in filter (selected pimlist) fnames)
    (Py.sorted (os_walk dir)).

(** The score of one prediction against its ground truth. *)
Definition scored {array curve score : Type}
    (imread : string -> result array) (ravel : array -> array)
    (roc_curve : array -> array -> Z -> result (curve * curve * curve))
    (auc : curve -> curve -> result score)
    (pathGT pathmask : string) (sc : score) : Prop :=
  exists GT mask fpr tpr thresholds,
    imread pathGT = Ok GT
    /\ imread pathmask = Ok mask
    /\ roc_curve (ravel GT) (ravel mask) 255%Z = Ok (fpr, tpr, thresholds)
    /\ auc fpr tpr = Ok sc.

(** A comparison that is a strict total order. *)
Record order_ok {A : Type} (cmp : A -> A -> comparison) : Prop := {
  cmp_eq : forall a b, cmp a b = Eq -> a = b;
  cmp_antisym : forall a b, cmp a b = CompOpp (cmp b a);
  cmp_trans : forall a b c, cmp a b = Lt -> cmp b c = Lt -> cmp a c = Lt
}.

(** Lexicographic combination of two comparisons. *)
Definition lex (c1 c2 : comparison) : comparison :=
  match c1 with
  | Eq => c2
  | Lt => Lt
  | Gt => Gt
  end.

(** [a] is not after [b] in the order of [sorted]. *)
Definition tuple_le (a b : walk_item) : Prop := Py.tuple_ltb b a = false.

(** What [AUC] reads of an item of the walk: the directory and its files,
    not the list of subdirectories. *)
Definition dir_files (item : walk_item) : string * list string :=
  let '(dir, _, fnames) := item in (dir, fnames).

Definition dir_of (item : walk_item) : string := fst (dir_files item).

(** The directory of [a] is before the directory of [b]. *)
Definition dir_before (a b : string * list string) : Prop :=
  String.compare (fst a) (fst b) = Lt.

(** * Properties *)

(** ** Strings *)

Module PyFacts.
Import Py.

Lemma prefix_nil (s : string) : prefix "" s = true.
Proof. destruct s; reflexivity. Qed.

Lemma length_app (a b : string) :
  String.length (a ++ b) = (String.length a + String.length b)%nat.
Proof. induction a as [|c a IH]; simpl; [reflexivity | now rewrite IH]. Qed.

Lemma map_chars_app (f : ascii -> ascii) (a b : string) :
  map_chars f (a ++ b) = (map_chars f a ++ map_chars f b)%string.
Proof. induction a as [|c a IH]; simpl; [reflexivity | now rewrite IH]. Qed.

Lemma map_chars_length (f : ascii -> ascii) (s : string) :
  String.length (map_chars f s) = String.length s.
Proof. induction s as [|c s IH]; simpl; [reflexivity | now rewrite IH]. Qed.

Lemma map_chars_fix (f : ascii -> ascii) (s : string) :
  (forall c, f (f c) = f c) -> map_chars f (map_chars f s) = map_chars f s.
Proof.
  intros Hf. induction s as [|c s IH]; simpl; [reflexivity|].
  now rewrite Hf, IH.
Qed.

(** Two splits of one string at the same position agree. *)
Lemma app_inj_length (a a' b b' : string) :
  String.length a = String.length a' ->
  (a ++ b)%string = (a' ++ b')%string -> a = a' /\ b = b'.
Proof.
  revert a'. induction a as [|c a IH]; intros [|c' a'] Hlen Heq;
    simpl in *; try discriminate.
  - now split.
  - injection Heq as -> Heq. injection Hlen as Hlen.
    destruct (IH a' Hlen Heq) as [-> ->]. now split.
Qed.

(** *** Letter case *)

Ltac by_cases_on_char c :=
  destruct c as [[] [] [] [] [] [] [] []]; reflexivity.

Lemma lower_char_idem (c : ascii) : lower_char (lower_char c) = lower_char c.
Proof. by_cases_on_char c. Qed.

Lemma lower_upper_char (c : ascii) :
  lower_char (upper_char c) = lower_char c.
Proof. by_cases_on_char c. Qed.

Lemma lower_idem (s : string) : lower (lower s) = lower s.
Proof. apply map_chars_fix, lower_char_idem. Qed.

Lemma lower_upper (s : string) : lower (upper s) = lower s.
Proof.
  induction s as [|c s IH]; simpl; [reflexivity|].
  unfold lower, upper in *. simpl. now rewrite lower_upper_char, IH.
Qed.

Lemma lower_app (a b : string) :
  lower (a ++ b) = (lower a ++ lower b)%string.
Proof. apply map_chars_app. Qed.

(** *** [endswith] *)

Lemma substring_all (s : string) : substring 0 (String.length s) s = s.
Proof. induction s as [|c s IH]; simpl; [reflexivity | now rewrite IH]. Qed.

Lemma substring_skip (a b : string) (m : nat) :
  substring (String.length a) m (a ++ b) = substring 0 m b.
Proof. induction a as [|c a IH]; simpl; [reflexivity | apply IH]. Qed.

Lemma substring_split (s : string) (k : nat) :
  (k <= String.length s)%nat ->
  s = (substring 0 k s ++ substring k (String.length s - k) s)%string.
Proof.
  revert k. induction s as [|c s IH]; intros [|k] Hk; simpl in *;
    try reflexivity; try lia.
  - now rewrite substring_all.
  - rewrite <- (IH k) by lia. reflexivity.
Qed.

Theorem endswith_iff (s suffix : string) :
  endswith s suffix = true <-> exists a, s = (a ++ suffix)%string.
Proof.
  unfold endswith. split.
  - intros H. apply andb_true_iff in H as [Hle Heq].
    apply Nat.leb_le in Hle. apply String.eqb_eq in Heq.
    set (k := (String.length s - String.length suffix)%nat) in *.
    assert (Hm : String.length suffix = (String.length s - k)%nat) by lia.
    assert (Hs := substring_split s k ltac:(lia)).
    rewrite <- Hm, Heq in Hs. now exists (substring 0 k s).
  - intros [a ->]. rewrite length_app.
    apply andb_true_iff. split.
    + apply Nat.leb_le. lia.
    + replace (String.length a + String.length suffix
               - String.length suffix)%nat with (String.length a) by lia.
      rewrite substring_skip, substring_all. apply String.eqb_refl.
Qed.

Lemma endswith_app (a b : string) : endswith (a ++ b) b = true.
Proof. apply endswith_iff. now exists a. Qed.

(** *** One-character patterns *)

Lemma prefix_char (c d : ascii) (t : string) :
  prefix (String c "") (String d t) = (d =? c)%char.
Proof.
  simpl. destruct (ascii_dec c d) as [->|Hn].
  - rewrite prefix_nil. symmetry. apply Ascii.eqb_refl.
  - symmetry. apply Ascii.eqb_neq. congruence.
Qed.

Lemma contains_char_cons (c d : ascii) (t : string) :
  contains (String c "") (String d t)
  = (d =? c)%char || contains (String c "") t.
Proof.
  change (contains (String c "") (String d t))
    with (if prefix (String c "") (String d t) then true
          else contains (String c "") t).
  rewrite prefix_char. now destruct (d =? c)%char.
Qed.

Theorem replace_x_y (s : string) : replace "x" "y" s = map_chars x_to_y s.
Proof.
  unfold replace.
  induction s as [|c s IH]; [reflexivity|].
  change (replace_from "x" "y" (String c s) 0)
    with (if prefix "x" (String c s)
          then ("y" ++ replace_from "x" "y" s 0)%string
          else String c (replace_from "x" "y" s 0)).
  rewrite prefix_char, IH. simpl. unfold x_to_y.
  now destruct (c =? "x")%char.
Qed.

Lemma no_x_after_replace (s : string) :
  contains "x" (map_chars x_to_y s) = false.
Proof.
  induction s as [|c s IH]; [reflexivity|].
  simpl map_chars. rewrite contains_char_cons, IH, orb_false_r.
  unfold x_to_y. destruct (Ascii.eqb_spec c "x") as [->|Hn].
  - reflexivity.
  - now apply Ascii.eqb_neq.
Qed.

End PyFacts.

(** ** The extension filter *)

Section ExtensionFilter.
Import Py PyFacts.

Lemma has_ext_iff (filename : string) (extensions : list string) :
  has_file_allowed_extension filename extensions = true
  <-> exists ext, In ext extensions
                  /\ exists a, lower filename = (a ++ ext)%string.
Proof.
  unfold has_file_allowed_extension, any. rewrite existsb_exists.
  split; intros [ext [Hin H]]; exists ext; split; trivial;
    now apply endswith_iff.
Qed.

Lemma has_ext_lower (filename : string) (extensions : list string) :
  has_file_allowed_extension (lower filename) extensions
  = has_file_allowed_extension filename extensions.
Proof. unfold has_file_allowed_extension. now rewrite lower_idem. Qed.

Lemma has_ext_upper (filename : string) (extensions : list string) :
  has_file_allowed_extension (upper filename) extensions
  = has_file_allowed_extension filename extensions.
Proof. unfold has_file_allowed_extension. now rewrite lower_upper. Qed.

(** A suffix of a lowercased name is its own lowercase form. *)
Lemma suffix_of_lower (s ext : string) :
  endswith (lower s) ext = true -> lower ext = ext.
Proof.
  intros H. apply endswith_iff in H as [a Ha].
  assert (Hl : lower (lower s) = lower s) by apply lower_idem.
  rewrite Ha, lower_app in Hl.
  apply app_inj_length in Hl; [tauto|].
  apply map_chars_length.
Qed.

(** ASCII text stays ASCII. *)
Lemma lower_char_ascii (c : ascii) :
  (nat_of_ascii c <? 128)%nat = true ->
  (nat_of_ascii (lower_char c) <? 128)%nat = true.
Proof. destruct c as [[] [] [] [] [] [] [] []]; vm_compute; auto. Qed.

Lemma lower_isascii (s : string) :
  isascii s = true -> isascii (lower s) = true.
Proof.
  induction s as [|c s IH]; simpl; [reflexivity|].
  intros H. apply andb_true_iff in H as [Hc Hs].
  apply andb_true_iff. split; [now apply lower_char_ascii | now apply IH].
Qed.

Lemma isascii_app_r (a b : string) :
  isascii (a ++ b) = true -> isascii b = true.
Proof.
  induction a as [|c a IH]; simpl; [tauto|].
  intros H. apply andb_true_iff in H as [_ H]. now apply IH.
Qed.

Lemma has_ext_entry_ascii_lowercase (filename ext : string) :
  isascii filename = true ->
  has_file_allowed_extension filename [ext]
  = has_file_allowed_extension filename [ext]
    && isascii ext && (lower ext =? ext).
Proof.
  intros Hf.
  destruct (has_file_allowed_extension filename [ext]) eqn:H; [|reflexivity].
  unfold has_file_allowed_extension, any in H. simpl in H.
  rewrite orb_false_r in H.
  assert (Hlow := suffix_of_lower _ _ H).
  apply endswith_iff in H as [a Ha].
  apply lower_isascii in Hf. rewrite Ha in Hf. apply isascii_app_r in Hf.
  rewrite Hf, Hlow. simpl. symmetry. apply String.eqb_refl.
Qed.

End ExtensionFilter.

(** C9, as stated, fails: the outcome of the match depends on the letter case
    of the extension entry.  The names [a.png] and [A.PNG] match the entry
    [.png] and neither matches the entry [.PNG]. *)
Lemma extension_entry_case_matters :
  ~ (forall filename filename' ext ext',
        Py.lower filename = Py.lower filename' ->
        Py.lower ext = Py.lower ext' ->
        has_file_allowed_extension filename [ext]
        = has_file_allowed_extension filename' [ext']).
Proof.
  intros H.
  specialize (H "a.png" "A.PNG" ".png" ".PNG" eq_refl eq_refl).
  vm_compute in H. discriminate.
Qed.

(** C9, amended: a file name passes the filter exactly when its lowercased
    form ends with one of the entries of [extensions] taken as they are.
    For a name made of ASCII characters the outcome does not depend on the
    letter case of the name (the name, its lowercase form, its uppercase
    form and every ASCII name that differs from it in letter case alone
    give the same outcome), but it does depend on the case of the entry: an
    entry matches such a name only if the entry is itself lowercase
    ASCII. *)
Theorem has_file_allowed_extension_case :
  forall (filename : string) (extensions : list string),
    Py.isascii filename = true ->
    (has_file_allowed_extension filename extensions = true
     <-> exists ext, In ext extensions
                     /\ exists a, Py.lower filename = (a ++ ext)%string)
    /\ has_file_allowed_extension (Py.lower filename) extensions
       = has_file_allowed_extension filename extensions
    /\ has_file_allowed_extension (Py.upper filename) extensions
       = has_file_allowed_extension filename extensions
    /\ (forall filename',
           Py.isascii filename' = true ->
           Py.lower filename' = Py.lower filename ->
           has_file_allowed_extension filename' extensions
           = has_file_allowed_extension filename extensions)
    /\ (forall ext,
           has_file_allowed_extension filename [ext]
           = has_file_allowed_extension filename [ext]
             && Py.isascii ext && (Py.lower ext =? ext)).
Proof.
  intros filename extensions Hascii.
  split; [apply has_ext_iff|]. split; [apply has_ext_lower|].
  split; [apply has_ext_upper|]. split.
  - intros filename' _ Heq. unfold has_file_allowed_extension.
    now rewrite Heq.
  - intros ext. now apply has_ext_entry_ascii_lowercase.
Qed.

Lemma has_file_allowed_extension_case_witness :
  has_file_allowed_extension (Py.upper "Photo_7.Png") [".jpg"; ".png"]
  = has_file_allowed_extension "Photo_7.Png" [".jpg"; ".png"]
  /\ has_file_allowed_extension "PHOTO_7.pNG" [".jpg"; ".png"]
     = has_file_allowed_extension "Photo_7.Png" [".jpg"; ".png"].
Proof.
  destruct (has_file_allowed_extension_case
              "Photo_7.Png" [".jpg"; ".png"] eq_refl)
    as (_ & _ & Hup & Hother & _).
  split; [exact Hup|]. apply Hother; reflexivity.
Defined.

(** C10: the entry [webp] of [IMG_EXTENSIONS] has no leading dot, so every
    name whose lowercased form ends in the letters [webp] is an image file
    for the filter ([imagewebp] is one, and discovery records it), while the
    other eight entries start with a dot: a name passes either through [webp]
    or through a dotted suffix, and [imagepng] does not pass. *)
Theorem webp_entry_without_dot :
  is_image_file "imagewebp" = true
  /\ (forall s, is_image_file (s ++ "webp") = true)
  /\ (forall filename,
         is_image_file filename
         = Py.endswith (Py.lower filename) "webp"
           || has_file_allowed_extension filename dotted_extensions)
  /\ IMG_EXTENSIONS = dotted_extensions ++ ["webp"]
  /\ Forall (fun ext => Py.startswith ext "." = true) dotted_extensions
  /\ Py.startswith "webp" "." = false
  /\ is_image_file "imagepng" = false
  /\ classify IMG_EXTENSIONS "data/x" "imagewebp"
     = [mk_record "data/x/imagewebp" "data/y/imagewebp" 1].
Proof.
  assert (Hsplit : forall filename,
             is_image_file filename
             = Py.endswith (Py.lower filename) "webp"
               || has_file_allowed_extension filename dotted_extensions).
  { intros filename. unfold is_image_file, has_file_allowed_extension, Py.any.
    change IMG_EXTENSIONS with (dotted_extensions ++ ["webp"]).
    rewrite existsb_app. simpl existsb at 2.
    rewrite orb_false_r. apply orb_comm. }
  repeat split; try reflexivity.
  - intros s. rewrite Hsplit, PyFacts.lower_app.
    change (Py.lower "webp") with "webp".
    now rewrite PyFacts.endswith_app.
  - exact Hsplit.
  - unfold dotted_extensions. repeat constructor.
Qed.

(** ** Discovery *)

Section DiscoveryFacts.
Import Py PyFacts.

(** A path under a root with an [x] never turns into the sentinel. *)

Ltac peel_char c root Hc Heq :=
  let H := fresh "H" in
  let E := fresh "E" in
  destruct root as [|c root]; [discriminate Hc|];
  simpl in Heq; injection Heq as H Heq;
  rewrite contains_char_cons in Hc;
  unfold x_to_y in H; destruct (Ascii.eqb_spec c "x") as [E|E];
  [discriminate H | subst c; simpl in Hc].

Lemma replaced_is_sentinel (root rest : string) :
  contains "x" root = true ->
  map_chars x_to_y (root ++ rest) = "empty" ->
  root = "emptx" /\ rest = "".
Proof.
  intros Hc Heq.
  peel_char c1 root Hc Heq. peel_char c2 root Hc Heq.
  peel_char c3 root Hc Heq. peel_char c4 root Hc Heq.
  destruct root as [|c5 root]; [discriminate Hc|].
  simpl in Heq. injection Heq as H5 Heq.
  destruct root as [|c6 root]; [|discriminate Heq].
  destruct rest as [|d rest]; [|discriminate Heq].
  rewrite contains_char_cons in Hc. simpl in Hc.
  rewrite orb_false_r in Hc. apply Ascii.eqb_eq in Hc. subst c5.
  now split.
Qed.

Lemma target_not_sentinel (root fname : string) :
  contains "x" root = true ->
  replace "x" "y" (path_join root fname) <> EMPTY.
Proof.
  intros Hc. rewrite replace_x_y. unfold path_join, EMPTY.
  destruct (startswith fname sep) eqn:Hs.
  - destruct fname as [|c t]; [discriminate Hs|].
    unfold startswith, sep in Hs. rewrite prefix_char in Hs.
    apply Ascii.eqb_eq in Hs. subst c. discriminate.
  - destruct ((root =? "") || endswith root sep) eqn:Hr; intros Heq.
    + destruct (replaced_is_sentinel _ _ Hc Heq) as [-> _].
      discriminate Hr.
    + destruct (replaced_is_sentinel _ _ Hc Heq) as [_ Hrest].
      discriminate Hrest.
Qed.

Lemma classify_ok (extensions : list string) (root fname : string) :
  Forall record_ok (classify extensions root fname).
Proof.
  unfold classify.
  destruct (has_file_allowed_extension fname extensions
            && contains "background" root).
  - apply Forall_cons; [|apply Forall_nil]. left. now split.
  - destruct (has_file_allowed_extension fname extensions
              && contains "x" root) eqn:Hx; [|apply Forall_nil].
    apply andb_true_iff in Hx as [_ Hx].
    destruct (contains "True" root);
      (apply Forall_cons; [|apply Forall_nil]); right; simpl;
      (split; [auto | split; [reflexivity | now apply target_not_sentinel]]).
Qed.

Variable expanduser : string -> string.
Variable os_walk : string -> list walk_item.

Lemma make_dataset_ok (dir : string) (extensions : list string) :
  Forall record_ok (make_dataset expanduser os_walk dir extensions).
Proof.
  unfold make_dataset. apply Forall_flat_map, Forall_forall.
  intros [[root dirs] files] _. apply Forall_flat_map, Forall_forall.
  intros fname _. apply classify_ok.
Qed.

Lemma classify_nonempty (extensions : list string) (root fname : string) :
  classify extensions root fname <> []
  <-> qualifies extensions root fname = true.
Proof.
  unfold classify, qualifies.
  destruct (has_file_allowed_extension fname extensions),
    (contains "background" root), (contains "x" root),
    (contains "True" root); simpl; split; intros H;
    try reflexivity; try discriminate; try congruence.
Qed.

Lemma make_dataset_nonempty (dir : string) (extensions : list string) :
  make_dataset expanduser os_walk dir extensions <> []
  <-> exists root dirs files fname,
        In (root, dirs, files) (os_walk (expanduser dir))
        /\ In fname files
        /\ qualifies extensions root fname = true.
Proof.
  unfold make_dataset. split.
  - intros H.
    destruct (flat_map _ (os_walk (expanduser dir))) as [|r l] eqn:E;
      [congruence|].
    assert (Hin : In r (r :: l)) by now left.
    rewrite <- E in Hin. apply in_flat_map in Hin as [[[root dirs] files] [Hw Hin]].
    apply in_flat_map in Hin as [fname [Hf Hin]].
    exists root, dirs, files, fname. repeat split; trivial.
    apply classify_nonempty. intros Hnil. rewrite Hnil in Hin. contradiction.
  - intros (root & dirs & files & fname & Hw & Hf & Hq) Hnil.
    apply classify_nonempty in Hq.
    destruct (classify extensions root fname) as [|r l] eqn:E; [congruence|].
    assert (Hin : In r []); [|contradiction].
    rewrite <- Hnil. apply in_flat_map. exists (root, dirs, files).
    split; [exact Hw|]. apply in_flat_map. exists fname.
    split; [exact Hf|]. rewrite E. now left.
Qed.

End DiscoveryFacts.

(** C1, as stated, fails: [str.replace] rewrites every [x] of the path, not
    the first one only.  Discovery over the example directory pairs
    [/home/u/data/x/box.png] with [/home/u/data/y/boy.png], whereas replacing
    the first [x] alone gives [/home/u/data/y/box.png]. *)
Lemma target_is_not_first_x_replaced :
  ~ (forall expanduser os_walk dir extensions r,
        In r (make_dataset expanduser os_walk dir extensions) ->
        label r = 1%Z \/ label r = 2%Z ->
        target_path r = Py.replace_first "x" "y" (input_path r)).
Proof.
  intros H.
  specialize (H Example.expanduser Example.os_walk "~/data" IMG_EXTENSIONS
                (mk_record "/home/u/data/x/box.png"
                           "/home/u/data/y/boy.png" 1)).
  vm_compute in H.
  specialize (H (or_introl eq_refl) (or_introl eq_refl)).
  discriminate H.
Qed.

(** C1, amended: for every record produced by discovery with label 1 or 2,
    [target_path] is [input_path] with every occurrence of [x] replaced by
    [y]: character for character the same string, except that each [x] has
    become [y], so that no [x] is left. *)
Theorem target_replaces_every_x :
  forall expanduser os_walk dir extensions r,
    In r (make_dataset expanduser os_walk dir extensions) ->
    label r = 1%Z \/ label r = 2%Z ->
    target_path r = Py.replace "x" "y" (input_path r)
    /\ target_path r = Py.map_chars x_to_y (input_path r)
    /\ Py.contains "x" (target_path r) = false.
Proof.
  intros expanduser os_walk dir extensions r Hin Hlab.
  assert (Hok := make_dataset_ok expanduser os_walk dir extensions).
  rewrite Forall_forall in Hok. specialize (Hok r Hin).
  destruct Hok as [[H0 _] | [_ [Ht _]]].
  - rewrite H0 in Hlab. destruct Hlab; discriminate.
  - rewrite Ht, PyFacts.replace_x_y.
    repeat split. apply PyFacts.no_x_after_replace.
Qed.

Lemma target_replaces_every_x_witness :
  let r := mk_record "/home/u/data/x/box.png" "/home/u/data/y/boy.png" 1 in
  target_path r = Py.replace "x" "y" (input_path r)
  /\ target_path r = Py.map_chars x_to_y (input_path r)
  /\ Py.contains "x" (target_path r) = false.
Proof.
  intros r.
  apply (target_replaces_every_x Example.expanduser Example.os_walk
           "~/data" IMG_EXTENSIONS r).
  - vm_compute. left. reflexivity.
  - left. reflexivity.
Defined.

(** C7: every record produced by discovery has a label among 0, 1 and 2 and
    a target path that is a string; the label is 0 exactly when the target
    path is the sentinel, and a record with label 1 or 2 carries the derived
    path, which differs from the sentinel. *)
Theorem record_label_and_target :
  forall expanduser os_walk dir extensions r,
    In r (make_dataset expanduser os_walk dir extensions) ->
    (label r = 0%Z \/ label r = 1%Z \/ label r = 2%Z)
    /\ (label r = 0%Z <-> target_path r = EMPTY)
    /\ (label r = 1%Z \/ label r = 2%Z ->
        target_path r = Py.replace "x" "y" (input_path r)
        /\ target_path r <> EMPTY).
Proof.
  intros expanduser os_walk dir extensions r Hin.
  assert (Hok := make_dataset_ok expanduser os_walk dir extensions).
  rewrite Forall_forall in Hok. specialize (Hok r Hin).
  destruct Hok as [[H0 Ht] | [Hl [Ht Hne]]].
  - split; [now left|]. split; [tauto|].
    intros [H1|H2]; [rewrite H0 in H1 | rewrite H0 in H2]; discriminate.
  - split; [tauto|]. split; [|tauto].
    split; [|intros He; contradiction].
    intros H0. destruct Hl as [H1|H2];
      [rewrite H0 in H1 | rewrite H0 in H2]; discriminate.
Qed.

Lemma record_label_and_target_witness :
  let r := mk_record "/home/u/data/background/sky.png" "empty" 0 in
  (label r = 0%Z \/ label r = 1%Z \/ label r = 2%Z)
  /\ (label r = 0%Z <-> target_path r = EMPTY)
  /\ (label r = 1%Z \/ label r = 2%Z ->
      target_path r = Py.replace "x" "y" (input_path r)
      /\ target_path r <> EMPTY).
Proof.
  intros r.
  apply (record_label_and_target Example.expanduser Example.os_walk
           "~/data" IMG_EXTENSIONS r).
  vm_compute. right. right. left. reflexivity.
Defined.

(** C6: construction raises the [RuntimeError] of an empty dataset exactly
    when discovery yields no record; discovery yields a record exactly when
    the walk holds a qualifying file, and then construction succeeds with a
    dataset that holds every discovered record, in order. *)
Theorem construction_fails_iff_no_record :
  forall expanduser os_walk root loader extensions patch_size transform,
    let records := make_dataset expanduser os_walk root extensions in
    let built := DatasetFolder_init expanduser os_walk root loader extensions
                                    patch_size transform in
    ((exists msg, built = Raise (RuntimeError msg)) <-> records = [])
    /\ ((exists e, built = Raise e) <-> records = [])
    /\ (records <> []
        <-> exists dir dirs files fname,
              In (dir, dirs, files) (os_walk (expanduser root))
              /\ In fname files
              /\ qualifies extensions dir fname = true)
    /\ (records <> []
        <-> exists ds,
              built = Ok ds
              /\ samples ds
                 = map (fun r => (input_path r, target_path r)) records
              /\ classes ds = map label records).
Proof.
  intros expanduser os_walk root loader extensions patch_size transform
         records built.
  assert (Hbuilt : built = DatasetFolder_init expanduser os_walk root loader
                             extensions patch_size transform) by reflexivity.
  unfold DatasetFolder_init in Hbuilt. fold records in Hbuilt.
  split; [|split; [|split]].
  - destruct records as [|r l]; simpl in Hbuilt; rewrite Hbuilt.
    + split; [reflexivity|]. intros _. eexists. reflexivity.
    + split; [intros [msg H]; discriminate H | discriminate].
  - destruct records as [|r l]; simpl in Hbuilt; rewrite Hbuilt.
    + split; [reflexivity|]. intros _. eexists. reflexivity.
    + split; [intros [msg H]; discriminate H | discriminate].
  - apply make_dataset_nonempty.
  - destruct records as [|r l] eqn:E; simpl in Hbuilt; rewrite Hbuilt.
    + split; [congruence|]. intros [ds [H _]]. discriminate H.
    + split; [|discriminate]. intros _. eexists. simpl. repeat split.
Qed.

(** ** List indexing *)

Section IndexFacts.
Context {A : Type}.
Implicit Types (l : list A) (i : Z).

Lemma index_out_of_range l i :
  (i < - Z.of_nat (List.length l) \/ Z.of_nat (List.length l) <= i)%Z ->
  Py.index l i = Raise IndexError.
Proof.
  intros H. unfold Py.index.
  destruct (i <? 0)%Z eqn:Hneg.
  - apply Z.ltb_lt in Hneg.
    assert (Hj : (i + Z.of_nat (List.length l) <? 0)%Z = true)
      by (apply Z.ltb_lt; lia).
    now rewrite Hj.
  - apply Z.ltb_ge in Hneg.
    assert (Hj : (Z.of_nat (List.length l) <=? i)%Z = true)
      by (apply Z.leb_le; lia).
    now rewrite Hj, orb_true_r.
Qed.

Lemma index_in_range l i :
  (0 <= i < Z.of_nat (List.length l))%Z ->
  exists a, nth_error l (Z.to_nat i) = Some a /\ Py.index l i = Ok a.
Proof.
  intros H. unfold Py.index.
  assert (Hneg : (i <? 0)%Z = false) by (apply Z.ltb_ge; lia).
  assert (Hhi : (Z.of_nat (List.length l) <=? i)%Z = false)
    by (apply Z.leb_gt; lia).
  rewrite Hneg. simpl. rewrite Hneg, Hhi. simpl.
  destruct (nth_error l (Z.to_nat i)) as [a|] eqn:E.
  - now exists a.
  - apply nth_error_None in E. lia.
Qed.

Lemma index_negative l i :
  (- Z.of_nat (List.length l) <= i < 0)%Z ->
  Py.index l i = Py.index l (i + Z.of_nat (List.length l)).
Proof.
  intros H. unfold Py.index.
  assert (Hneg : (i <? 0)%Z = true) by (apply Z.ltb_lt; lia).
  assert (Hpos : (i + Z.of_nat (List.length l) <? 0)%Z = false)
    by (apply Z.ltb_ge; lia).
  cbv zeta. rewrite Hneg, Hpos. cbv iota. rewrite Hpos. reflexivity.
Qed.

Lemma index_Ok_In l i (a : A) : Py.index l i = Ok a -> In a l.
Proof.
  unfold Py.index. cbv zeta.
  destruct (_ || _); [discriminate|].
  destruct (nth_error l _) as [b|] eqn:E; [|discriminate].
  intros [= <-]. eapply nth_error_In, E.
Qed.

Lemma index_map {B : Type} (f : A -> B) l i :
  Py.index (map f l) i
  = match Py.index l i with
    | Ok a => Ok (f a)
    | Raise e => Raise e
    end.
Proof.
  unfold Py.index. cbv zeta. rewrite length_map.
  destruct (_ || _); [reflexivity|].
  rewrite nth_error_map. now destruct (nth_error l _).
Qed.

End IndexFacts.

(** ** The area statistic *)

Section AreaFacts.

Lemma sum_list_app (a b : list Z) :
  sum_list (a ++ b) = (sum_list a + sum_list b)%Z.
Proof. induction a as [|x a IH]; simpl; [reflexivity | rewrite IH; lia]. Qed.

Lemma nonzero1_length (v : list Z) :
  Forall (fun p => List.length p = 1%nat) (nonzero1 v).
Proof.
  unfold nonzero1. apply Forall_flat_map, Forall_forall.
  intros [k x] _. destruct (x =? 0)%Z; repeat constructor.
Qed.

Lemma Forall_map_cons (n : nat) (j : Z) (ps : list (list Z)) :
  Forall (fun p => List.length p = n) ps ->
  Forall (fun p => List.length p = S n) (map (cons j) ps).
Proof.
  intros H. apply Forall_map. eapply Forall_impl; [|exact H].
  intros p Hp. simpl. now rewrite Hp.
Qed.

Lemma nonzero2_length (rows : list (list Z)) :
  Forall (fun p => List.length p = 2%nat) (nonzero2 rows).
Proof.
  unfold nonzero2. apply Forall_flat_map, Forall_forall.
  intros [j v] _. apply Forall_map_cons, nonzero1_length.
Qed.

Lemma nonzero3_length (rows : list (list (list Z))) :
  Forall (fun p => List.length p = 3%nat) (nonzero3 rows).
Proof.
  unfold nonzero3. apply Forall_flat_map, Forall_forall.
  intros [i r] _. apply Forall_map_cons, nonzero2_length.
Qed.

Lemma positions_length (a : ndarray) :
  Forall (fun p => List.length p = ndim a) (positions a).
Proof. destruct a; [apply nonzero2_length | apply nonzero3_length]. Qed.

Lemma nth_seq (p : list Z) :
  map (fun d => nth d p 0%Z) (seq 0 (List.length p)) = p.
Proof.
  induction p as [|x p IH]; simpl; [reflexivity|]. f_equal.
  rewrite <- seq_shift, map_map. exact IH.
Qed.

(** Adding the index arrays up dimension by dimension or position by
    position gives the same total. *)
Lemma sum_by_dimension (n : nat) (ps : list (list Z)) :
  Forall (fun p => List.length p = n) ps ->
  np_sum (map (fun d => map (fun p => nth d p 0%Z) ps) (seq 0 n))
  = sum_list (map sum_list ps).
Proof.
  unfold np_sum. intros H. induction H as [|p ps Hp _ IH].
  - induction (seq 0 n) as [|d ds IHd]; simpl; auto.
  - simpl map at 2. simpl sum_list at 2. rewrite <- IH. clear IH.
    assert (Hpn : sum_list p
                  = sum_list (map (fun d => nth d p 0%Z) (seq 0 n))).
    { rewrite <- Hp. now rewrite nth_seq. }
    rewrite Hpn. clear Hpn Hp.
    induction (seq 0 n) as [|d ds IHd]; simpl; [reflexivity|].
    rewrite !sum_list_app, IHd. lia.
Qed.

End AreaFacts.

Section GetitemFacts.

Lemma area_of_index_area (target : image) :
  area_of target = index_area target.
Proof.
  unfold area_of, index_area, index_sum, nonzero.
  now rewrite (sum_by_dimension _ _ (positions_length (np_array target))).
Qed.

Lemma blank_target_zero (p : Z) (im : image) :
  blank_target p = Ok im -> zero_image (Z.to_nat p) (Z.to_nat p) im.
Proof.
  unfold blank_target, np_zeros. destruct (p <? 0)%Z; [discriminate|].
  simpl. intros [= <-]. eexists. split; [reflexivity|].
  split; [apply repeat_length|].
  apply Forall_forall. intros row Hrow. apply repeat_spec in Hrow. subst row.
  split; [apply repeat_length|].
  apply Forall_forall. intros v Hv. apply repeat_spec in Hv. now subst v.
Qed.

Variable expanduser : string -> string.
Variable os_walk : string -> list walk_item.

(** What construction leaves in the object. *)
Lemma init_fields root ld extensions p tr ds :
  DatasetFolder_init expanduser os_walk root ld extensions p tr = Ok ds ->
  let records := make_dataset expanduser os_walk root extensions in
  loader ds = ld /\ patch_size ds = p /\ transform ds = tr
  /\ samples ds = map (fun r => (input_path r, target_path r)) records
  /\ classes ds = map label records.
Proof.
  unfold DatasetFolder_init.
  destruct (List.length _ =? 0)%nat; [discriminate|].
  intros [= <-]. simpl. repeat split.
Qed.

(** The two lists of the object are aligned, and each pair with its class
    comes from one discovered record. *)
Lemma init_index root ld extensions p tr ds i px py :
  DatasetFolder_init expanduser os_walk root ld extensions p tr = Ok ds ->
  Py.index (samples ds) i = Ok (px, py) ->
  exists r,
    record_ok r
    /\ px = input_path r /\ py = target_path r
    /\ Py.index (classes ds) i = Ok (label r).
Proof.
  intros Hinit Hidx.
  destruct (init_fields _ _ _ _ _ _ Hinit) as (_ & _ & _ & Hs & Hc).
  rewrite Hs, index_map in Hidx. rewrite Hc, index_map.
  destruct (Py.index (make_dataset _ _ _ _) i) as [r|e] eqn:E;
    [|discriminate].
  injection Hidx as <- <-. exists r. repeat split.
  apply index_Ok_In in E.
  assert (Hok := make_dataset_ok expanduser os_walk root extensions).
  rewrite Forall_forall in Hok. now apply Hok.
Qed.

(** [__getitem__] once both lookups have succeeded. *)
Lemma getitem_indexed ds i px py l :
  Py.index (samples ds) i = Ok (px, py) ->
  Py.index (classes ds) i = Ok l ->
  getitem ds i
  = (s0 <- loader ds px ;;
     ' (t0, a0) <-
       (if negb (py =? "empty") then
          t <- loader ds py ;; Ok (t, area_of t)
        else
          t <- blank_target (patch_size ds) ;; Ok (t, f32_of_Z 0)) ;;
     ' (s, t) <- apply_transform (transform ds) s0 t0 ;;
     Ok (s, t,
         match transform ds with
         | Some _ => if negb (l =? 0)%Z then area_of t else a0
         | None => a0
         end, l)).
Proof.
  intros Hs Hc. unfold getitem. rewrite Hs. simpl.
  destruct (loader ds px) as [s0|e]; simpl; [|reflexivity].
  rewrite Hc. simpl.
  destruct (if negb (py =? "empty") then _ else _) as [[t0 a0]|e]; simpl;
    [|reflexivity].
  destruct (transform ds) as [f|]; simpl; [|reflexivity].
  destruct (f s0 t0) as [[s t]|e]; reflexivity.
Qed.

End GetitemFacts.

(** ** The sample accessor *)

(** C2, as stated, fails: the index [-1] lies outside [0 <= index < len],
    yet [__getitem__] answers it with the last sample, as Python list
    indexing does. *)
Lemma getitem_minus_one_returns :
  ~ (forall expanduser os_walk root ld extensions p tr ds index,
        DatasetFolder_init expanduser os_walk root ld extensions p tr = Ok ds ->
        ~ (0 <= index < Z.of_nat (len ds))%Z ->
        getitem ds index = Raise IndexError).
Proof.
  intros H.
  specialize (H Example.expanduser Example.os_walk "~/data" Example.load
                IMG_EXTENSIONS 2%Z None (Example.ds None) (-1)%Z eq_refl).
  assert (Hout : ~ (0 <= -1 < Z.of_nat (len (Example.ds None)))%Z) by lia.
  specialize (H Hout). vm_compute in H. discriminate H.
Qed.

(** C2, amended: [__getitem__] fails with an out-of-range error for every
    index with [index >= len] or [index < -len], so [get(len)] fails; an
    index with [-len <= index < 0] is not refused but addresses the sample
    at [index + len], so [get(-1)] is the last sample; for an index within
    [-len <= index < len] the lookup itself succeeds. *)
Theorem getitem_index_range :
  forall expanduser os_walk root ld extensions p tr ds index,
    DatasetFolder_init expanduser os_walk root ld extensions p tr = Ok ds ->
    let n := Z.of_nat (len ds) in
    ((index < - n \/ n <= index)%Z -> getitem ds index = Raise IndexError)
    /\ getitem ds n = Raise IndexError
    /\ ((- n <= index < 0)%Z -> getitem ds index = getitem ds (index + n))
    /\ ((- n <= index < n)%Z ->
        exists pair, Py.index (samples ds) index = Ok pair).
Proof.
  intros expanduser os_walk root ld extensions p tr ds index Hinit n.
  assert (Hout : forall i, (i < - n \/ n <= i)%Z ->
                           getitem ds i = Raise IndexError).
  { intros i Hi. unfold getitem.
    now rewrite (index_out_of_range (samples ds) i Hi). }
  assert (Hlen : List.length (classes ds) = List.length (samples ds)).
  { destruct (init_fields _ _ _ _ _ _ _ _ Hinit) as (_ & _ & _ & Hs & Hc).
    now rewrite Hs, Hc, !length_map. }
  split; [apply Hout|]. split; [apply Hout; lia|]. split.
  - intros Hneg. unfold getitem.
    rewrite (index_negative (samples ds) index Hneg).
    rewrite (index_negative (classes ds) index) by (rewrite Hlen; exact Hneg).
    rewrite Hlen. reflexivity.
  - intros Hin. destruct (Z.ltb_spec index 0) as [Hneg|Hpos].
    + rewrite (index_negative (samples ds) index) by (split; [apply Hin|lia]).
      destruct (index_in_range (samples ds) (index + n)) as [a [_ Ha]];
        [unfold n, len in *; lia|].
      exists a. exact Ha.
    + destruct (index_in_range (samples ds) index) as [a [_ Ha]];
        [unfold n, len in *; lia|].
      exists a. exact Ha.
Qed.

Lemma getitem_index_range_witness :
  getitem (Example.ds None) 3 = Raise IndexError
  /\ getitem (Example.ds None) (-4) = Raise IndexError
  /\ getitem (Example.ds None) (-1) = getitem (Example.ds None) 2.
Proof.
  assert (Hinit : DatasetFolder_init Example.expanduser Example.os_walk
                    "~/data" Example.load IMG_EXTENSIONS 2%Z None
                  = Ok (Example.ds None)) by reflexivity.
  split; [|split].
  - exact (proj1 (proj2 (getitem_index_range _ _ _ _ _ _ _ _ 0%Z Hinit))).
  - apply (proj1 (getitem_index_range _ _ _ _ _ _ _ _ (-4)%Z Hinit)).
    left. simpl. lia.
  - apply (proj1 (proj2 (proj2
             (getitem_index_range _ _ _ _ _ _ _ _ (-1)%Z Hinit)))).
    simpl. lia.
Defined.

(** C5: for a record whose target path is the sentinel, [__getitem__]
    without transform returns the area 0.0 and a single-channel target of
    [patch_size] rows and [patch_size] columns whose pixels are all zero
    (given a patch size that is not negative and an input image that
    loads). *)
Theorem empty_record_blank_target :
  forall expanduser os_walk root ld extensions p ds index px s,
    DatasetFolder_init expanduser os_walk root ld extensions p None = Ok ds ->
    Py.index (samples ds) index = Ok (px, EMPTY) ->
    (0 <= p)%Z ->
    ld px = Ok s ->
    exists target,
      getitem ds index = Ok (s, target, Fin 0, 0%Z)
      /\ target = ImgL (repeat (repeat 0%Z (Z.to_nat p)) (Z.to_nat p))
      /\ mode_of target = L
      /\ zero_image (Z.to_nat p) (Z.to_nat p) target.
Proof.
  intros expanduser os_walk root ld extensions p ds index px s
         Hinit Hidx Hp Hload.
  destruct (init_index _ _ _ _ _ _ _ _ _ _ _ Hinit Hidx)
    as (r & Hok & _ & Hpy & Hcls).
  assert (Hlab : label r = 0%Z).
  { destruct Hok as [[H0 _] | [_ [_ Hne]]]; [exact H0|].
    now rewrite <- Hpy in Hne. }
  rewrite Hlab in Hcls.
  destruct (init_fields _ _ _ _ _ _ _ _ Hinit) as (Hl & Hps & Htr & _ & _).
  assert (Hblank : blank_target p
                   = Ok (ImgL (repeat (repeat 0%Z (Z.to_nat p)) (Z.to_nat p)))).
  { unfold blank_target, np_zeros.
    assert (Hge : (p <? 0)%Z = false) by (apply Z.ltb_ge; exact Hp).
    now rewrite Hge. }
  eexists. split; [|split; [reflexivity|split; [reflexivity|]]].
  - rewrite (getitem_indexed ds index px EMPTY 0%Z Hidx Hcls).
    rewrite Hl, Hps, Htr, Hload. simpl. rewrite Hblank. reflexivity.
  - now apply blank_target_zero.
Qed.

Lemma empty_record_blank_target_witness :
  getitem (Example.ds None) 2
  = Ok (ImgL [[8%Z]], ImgL [[0; 0]; [0; 0]]%Z, Fin 0, 0%Z).
Proof.
  destruct (empty_record_blank_target
              Example.expanduser Example.os_walk "~/data" Example.load
              IMG_EXTENSIONS 2%Z (Example.ds None) 2%Z
              "/home/u/data/background/sky.png" (ImgL [[8%Z]])
              eq_refl eq_refl ltac:(lia) eq_refl)
    as (target & Hget & Htarget & _).
  rewrite Hget, Htarget. reflexivity.
Defined.

(** C3: for a record with a target path other than the sentinel, the area
    that [__getitem__] returns is the sum of the coordinate indices of the
    non-zero entries of the returned target, divided by the number of its
    entries; and it does return when the two images load and the transform,
    if any, succeeds.  This is not the share of non-zero pixels: for the
    target [[0, 0], [0, 255]] the area is 2/4, the share 1/4. *)
Theorem area_is_sum_of_indices :
  forall expanduser os_walk root ld extensions p tr ds index px py,
    DatasetFolder_init expanduser os_walk root ld extensions p tr = Ok ds ->
    Py.index (samples ds) index = Ok (px, py) ->
    py <> EMPTY ->
    (forall s t a l, getitem ds index = Ok (s, t, a, l) -> a = index_area t)
    /\ (forall s0 t0 s t,
           ld px = Ok s0 -> ld py = Ok t0 ->
           apply_transform tr s0 t0 = Ok (s, t) ->
           exists l, getitem ds index = Ok (s, t, index_area t, l))
    /\ index_area (ImgL [[0; 0]; [0; 255]]%Z) = Fin (2 # 4)
    /\ count_area (ImgL [[0; 0]; [0; 255]]%Z) = Fin (1 # 4).
Proof.
  intros expanduser os_walk root ld extensions p tr ds index px py
         Hinit Hidx Hne.
  destruct (init_index _ _ _ _ _ _ _ _ _ _ _ Hinit Hidx)
    as (r & Hok & _ & Hpy & Hcls).
  assert (Hlab : (label r =? 0)%Z = false).
  { destruct Hok as [[_ He] | [Hl _]]; [now rewrite <- Hpy in He|].
    destruct Hl as [-> | ->]; reflexivity. }
  assert (Hpy' : (py =? "empty") = false) by now apply String.eqb_neq.
  destruct (init_fields _ _ _ _ _ _ _ _ Hinit) as (Hl & _ & Htr & _ & _).
  assert (Hget := getitem_indexed ds index px py (label r) Hidx Hcls).
  rewrite Hpy', Hlab, Hl, Htr in Hget. simpl negb in Hget. cbv iota in Hget.
  split; [|split; [|split; reflexivity]].
  - intros s t a l. rewrite Hget.
    destruct (ld px) as [s0|e]; simpl; [|discriminate].
    destruct (ld py) as [t0|e]; simpl; [|discriminate].
    destruct tr as [f|]; simpl.
    + destruct (f s0 t0) as [[s' t']|e]; simpl; [|discriminate].
      intros [= <- <- <- <-]. apply area_of_index_area.
    + intros [= <- <- <- <-]. apply area_of_index_area.
  - intros s0 t0 s t Hs Ht Happ. exists (label r).
    rewrite Hget, Hs. simpl. rewrite Ht. simpl. rewrite Happ. simpl.
    destruct tr; simpl in *.
    + now rewrite area_of_index_area.
    + injection Happ as <- <-. now rewrite area_of_index_area.
Qed.

Lemma area_is_sum_of_indices_witness :
  getitem (Example.ds None) 0
  = Ok (ImgRGB [[(10, 20, 30); (0, 0, 0)]; [(0, 0, 0); (40, 50, 60)]]%Z,
        ImgL [[0; 0]; [0; 255]]%Z, Fin (2 # 4), 1%Z).
Proof.
  destruct (area_is_sum_of_indices
              Example.expanduser Example.os_walk "~/data" Example.load
              IMG_EXTENSIONS 2%Z None (Example.ds None) 0%Z
              "/home/u/data/x/box.png" "/home/u/data/y/boy.png"
              eq_refl eq_refl ltac:(discriminate))
    as (Hback & _ & _ & _).
  destruct (getitem (Example.ds None) 0) as [[[[s t] a] l]|e] eqn:E.
  - rewrite (Hback s t a l eq_refl). vm_compute in E.
    injection E as <- <- _ <-. reflexivity.
  - vm_compute in E. discriminate E.
Defined.

(** C8: with a transform configured, [__getitem__] hands the loaded pair to
    the transform and returns the transformed pair; the area is recomputed
    from the transformed target, by the formula of the branch for a present
    target, exactly when the label is not 0, and for label 0 it stays 0.0
    whatever the transformed target holds. *)
Theorem transform_then_area :
  forall expanduser os_walk root ld extensions p f ds index px py s0 t0 s t,
    DatasetFolder_init expanduser os_walk root ld extensions p (Some f)
    = Ok ds ->
    Py.index (samples ds) index = Ok (px, py) ->
    ld px = Ok s0 ->
    (if py =? EMPTY then blank_target p else ld py) = Ok t0 ->
    f s0 t0 = Ok (s, t) ->
    exists l,
      Py.index (classes ds) index = Ok l
      /\ getitem ds index
         = Ok (s, t, (if (l =? 0)%Z then Fin 0 else area_of t), l)
      /\ (l = 0%Z <-> py = EMPTY).
Proof.
  intros expanduser os_walk root ld extensions p f ds index px py s0 t0 s t
         Hinit Hidx Hs Ht Hf.
  destruct (init_index _ _ _ _ _ _ _ _ _ _ _ Hinit Hidx)
    as (r & Hok & _ & Hpy & Hcls).
  destruct (init_fields _ _ _ _ _ _ _ _ Hinit) as (Hl & Hps & Htr & _ & _).
  exists (label r). split; [exact Hcls|].
  assert (Hget := getitem_indexed ds index px py (label r) Hidx Hcls).
  rewrite Hl, Hps, Htr, Hs in Hget. simpl in Hget.
  change "empty" with EMPTY in Hget.
  destruct Hok as [[H0 He] | [Hlab [_ Hne]]].
  - rewrite <- Hpy in He. subst py. rewrite String.eqb_refl in Ht, Hget.
    simpl in Hget. rewrite Ht in Hget. simpl in Hget.
    rewrite Hf in Hget. simpl in Hget. rewrite H0 in *. simpl in *.
    split; [exact Hget | tauto].
  - rewrite <- Hpy in Hne. apply String.eqb_neq in Hne as Hneb.
    rewrite Hneb in Ht, Hget. simpl in Hget. rewrite Ht in Hget.
    simpl in Hget. rewrite Hf in Hget. simpl in Hget.
    destruct Hlab as [H1 | H2]; [rewrite H1 in * | rewrite H2 in *];
      simpl in *; (split; [exact Hget|]); split; intros H;
      try discriminate; contradiction.
Qed.

Lemma transform_then_area_witness :
  getitem (Example.ds (Some Example.hflip)) 0
  = Ok (ImgRGB [[(0, 0, 0); (10, 20, 30)]; [(40, 50, 60); (0, 0, 0)]]%Z,
        ImgL [[0; 0]; [255; 0]]%Z, Fin (1 # 4), 1%Z).
Proof.
  destruct (transform_then_area
              Example.expanduser Example.os_walk "~/data" Example.load
              IMG_EXTENSIONS 2%Z Example.hflip
              (Example.ds (Some Example.hflip)) 0%Z
              "/home/u/data/x/box.png" "/home/u/data/y/boy.png"
              _ _ _ _ eq_refl eq_refl eq_refl eq_refl eq_refl)
    as (l & Hcls & Hget & _).
  rewrite Hget. vm_compute in Hcls. injection Hcls as <-. reflexivity.
Defined.

(** C4, as stated, fails: the default loader picks the colour mode from the
    path text.  The input path [/home/u/data/background/sky.png] holds a
    [y], so the input image of that sample comes back in mode [L], not
    [RGB]. *)
Lemma input_with_y_is_not_rgb :
  ~ (forall (rawimage : Type) open_image convert_L convert_RGB accimage_Image
            get_image_backend expanduser os_walk root p ds index s t a l,
        ImageFolderTrain_init expanduser os_walk root p None
          (default_loader rawimage open_image convert_L convert_RGB
                          accimage_Image get_image_backend)
        = Ok ds ->
        getitem ds index = Ok (s, t, a, l) ->
        mode_of s = RGB).
Proof.
  intros H.
  specialize (H image Example.open_image Example.convert_L Example.convert_RGB
                Example.accimage_Image Example.get_image_backend
                Example.expanduser Example.os_walk "~/data" 2%Z
                (Example.ds None) 2%Z
                (ImgL [[8%Z]]) (ImgL [[0; 0]; [0; 0]]%Z) (Fin 0) 0%Z
                eq_refl eq_refl).
  discriminate H.
Qed.

(** C4, amended: with the default loader on the PIL backend, [__getitem__]
    loads the input image from the input path of the indexed record, in mode
    [RGB] exactly when that path holds no [y]; an input path with a [y] in
    it is decoded in the single-channel mode [L].  This holds for every
    sample that is returned, with or without a transform (which then acts
    on the image so loaded), and the sample is returned whenever the two
    images load and the transform, if any, succeeds. *)
Theorem input_mode_follows_path :
  forall (rawimage : Type) open_image convert_L convert_RGB accimage_Image
         get_image_backend expanduser os_walk root p tr ds index px py,
    let pil := pil_loader rawimage open_image convert_L convert_RGB in
    ImageFolderTrain_init expanduser os_walk root p tr
      (default_loader rawimage open_image convert_L convert_RGB
                      accimage_Image get_image_backend)
    = Ok ds ->
    (get_image_backend =? "accimage") = false ->
    Py.index (samples ds) index = Ok (px, py) ->
    (forall s0,
        pil px = Ok s0 ->
        (mode_of s0 = RGB <-> Py.contains "y" px = false)
        /\ (mode_of s0 = L <-> Py.contains "y" px = true)
        /\ exists raw,
             open_image px = Ok raw
             /\ (if Py.contains "y" px
                 then exists g, convert_L raw = Ok g /\ s0 = ImgL g
                 else exists c, convert_RGB raw = Ok c /\ s0 = ImgRGB c))
    /\ (forall s t a l,
           getitem ds index = Ok (s, t, a, l) ->
           exists s0 t0,
             pil px = Ok s0 /\ apply_transform tr s0 t0 = Ok (s, t))
    /\ (forall s0 t0 s t,
           pil px = Ok s0 ->
           (if py =? EMPTY then blank_target p else pil py) = Ok t0 ->
           apply_transform tr s0 t0 = Ok (s, t) ->
           exists a l, getitem ds index = Ok (s, t, a, l)).
Proof.
  intros rawimage open_image convert_L convert_RGB accimage_Image
         get_image_backend expanduser os_walk root p tr ds index px py pil
         Hinit Hpil Hidx.
  unfold ImageFolderTrain_init in Hinit.
  destruct (init_index _ _ _ _ _ _ _ _ _ _ _ Hinit Hidx)
    as (r & _ & _ & _ & Hcls).
  destruct (init_fields _ _ _ _ _ _ _ _ Hinit) as (Hl & Hps & Htr & _ & _).
  assert (Hget := getitem_indexed ds index px py (label r) Hidx Hcls).
  rewrite Hl, Hps, Htr in Hget.
  assert (Hdef : forall path,
             default_loader rawimage open_image convert_L convert_RGB
                            accimage_Image get_image_backend path
             = pil path)
    by (intros path; unfold default_loader; now rewrite Hpil).
  rewrite !Hdef in Hget. change "empty" with EMPTY in Hget.
  split; [|split].
  - intros s0 Hs0. unfold pil, pil_loader in Hs0.
    destruct (open_image px) as [raw|e]; simpl in Hs0; [|discriminate Hs0].
    destruct (Py.contains "y" px).
    + destruct (convert_L raw) as [g|e] eqn:Hg; simpl in Hs0;
        [|discriminate Hs0].
      injection Hs0 as <-. simpl.
      repeat split; intros; try reflexivity; try discriminate.
      exists raw. split; [reflexivity|]. now exists g.
    + destruct (convert_RGB raw) as [c|e] eqn:Hc; simpl in Hs0;
        [|discriminate Hs0].
      injection Hs0 as <-. simpl.
      repeat split; intros; try reflexivity; try discriminate.
      exists raw. split; [reflexivity|]. now exists c.
  - intros s t a l Hret. rewrite Hget in Hret.
    destruct (pil px) as [s0|e]; simpl in Hret; [|discriminate Hret].
    destruct (if negb (py =? EMPTY) then _ else _) as [[t0 a0]|e];
      simpl in Hret; [|discriminate Hret].
    destruct (apply_transform tr s0 t0) as [[s' t']|e] eqn:Happ;
      simpl in Hret; [|discriminate Hret].
    injection Hret as <- <- _ _. now exists s0, t0.
  - intros s0 t0 s t Hs0 Ht0 Happ. rewrite Hget, Hs0. simpl.
    destruct (py =? EMPTY); simpl; rewrite Ht0; simpl; rewrite Happ; simpl;
      eauto.
Qed.

Lemma input_mode_follows_path_witness :
  exists a l,
    getitem (Example.ds (Some Example.hflip)) 1
    = Ok (ImgRGB [[(4, 5, 6); (1, 2, 3)]]%Z, ImgL [[0; 255]]%Z, a, l).
Proof.
  apply (proj2 (proj2
           (input_mode_follows_path
              image Example.open_image Example.convert_L Example.convert_RGB
              Example.accimage_Image Example.get_image_backend
              Example.expanduser Example.os_walk "~/data" 2%Z
              (Some Example.hflip) (Example.ds (Some Example.hflip)) 1%Z
              "/home/u/data/x/True/img001.PNG"
              "/home/u/data/y/True/img001.PNG"
              eq_refl eq_refl eq_refl))
           (ImgRGB [[(1, 2, 3); (4, 5, 6)]]%Z) (ImgL [[255; 0]]%Z));
    reflexivity.
Defined.

(** * Further properties of the loader *)

Section DiscoveryOrder.
Import Py PyFacts.

Lemma classify_input_paths (extensions : list string) (root fname : string) :
  map input_path (classify extensions root fname)
  = if qualifies extensions root fname then [path_join root fname] else [].
Proof.
  unfold classify, qualifies.
  destruct (has_file_allowed_extension fname extensions),
    (contains "background" root), (contains "x" root),
    (contains "True" root); reflexivity.
Qed.

Lemma map_flat_map {A B C : Type} (f : B -> C) (g : A -> list B)
    (l : list A) :
  map f (flat_map g l) = flat_map (fun a => map f (g a)) l.
Proof.
  induction l as [|a l IH]; simpl; [reflexivity|].
  now rewrite map_app, IH.
Qed.

Lemma flat_map_filter {A B : Type} (f : A -> B) (keep : A -> bool)
    (l : list A) :
  flat_map (fun a => if keep a then [f a] else []) l = map f (filter keep l).
Proof.
  induction l as [|a l IH]; simpl; [reflexivity|].
  rewrite IH. now destruct (keep a).
Qed.

Lemma contains_y_after_replace (s : string) :
  contains "x" s = true -> contains "y" (map_chars x_to_y s) = true.
Proof.
  induction s as [|c s IH]; [discriminate|].
  simpl map_chars. rewrite !contains_char_cons. intros H.
  apply orb_true_iff in H as [H|H].
  - apply Ascii.eqb_eq in H. subst c. reflexivity.
  - rewrite (IH H). apply orb_true_r.
Qed.

Lemma contains_char_left (c : ascii) (a b : string) :
  contains (String c "") a = true -> contains (String c "") (a ++ b) = true.
Proof.
  induction a as [|d a IH]; [discriminate|].
  change (String d a ++ b)%string with (String d (a ++ b)).
  rewrite !contains_char_cons.
  destruct (d =? c)%char; [reflexivity|]. exact IH.
Qed.

Lemma join_keeps_x (root fname : string) :
  startswith fname sep = false ->
  contains "x" root = true ->
  contains "x" (path_join root fname) = true.
Proof.
  intros Hs Hx. unfold path_join. rewrite Hs.
  destruct ((root =? "") || endswith root sep); now apply contains_char_left.
Qed.

End DiscoveryOrder.

(** The records of [make_dataset]: where each one comes from. *)
Lemma classify_origin (extensions : list string) (root fname : string)
    (r : sample_record) :
  In r (classify extensions root fname) ->
  has_file_allowed_extension fname extensions = true
  /\ input_path r = Py.path_join root fname
  /\ (label r = 0%Z <-> Py.contains "background" root = true)
  /\ (label r = 1%Z <-> Py.contains "background" root = false
                        /\ Py.contains "True" root = false)
  /\ (label r = 2%Z <-> Py.contains "background" root = false
                        /\ Py.contains "True" root = true)
  /\ (Py.contains "background" root = true \/ Py.contains "x" root = true).
Proof.
  unfold classify.
  destruct (has_file_allowed_extension fname extensions),
    (Py.contains "background" root), (Py.contains "x" root),
    (Py.contains "True" root); simpl; intros H;
    try contradiction; destruct H as [<- | []]; simpl;
    repeat split; intros; try reflexivity; try discriminate;
    try tauto; try (destruct H; discriminate).
Qed.

(** X1: every record comes from a file of the walk whose name has an
    allowed extension; its input path is the directory joined with the name;
    a directory path with [background] gives label 0 even when it also holds
    an [x], and among the others [True] in the directory path separates
    label 2 from label 1; the file name plays no part in the label. *)
Theorem record_origin :
  forall expanduser os_walk dir extensions r,
    In r (make_dataset expanduser os_walk dir extensions) ->
    exists root dirs files fname,
      In (root, dirs, files) (os_walk (expanduser dir))
      /\ In fname files
      /\ has_file_allowed_extension fname extensions = true
      /\ input_path r = Py.path_join root fname
      /\ (label r = 0%Z <-> Py.contains "background" root = true)
      /\ (label r = 1%Z <-> Py.contains "background" root = false
                            /\ Py.contains "True" root = false)
      /\ (label r = 2%Z <-> Py.contains "background" root = false
                            /\ Py.contains "True" root = true)
      /\ (Py.contains "background" root = true
          \/ Py.contains "x" root = true).
Proof.
  intros expanduser os_walk dir extensions r Hin.
  unfold make_dataset in Hin.
  apply in_flat_map in Hin as [[[root dirs] files] [Hw Hin]].
  apply in_flat_map in Hin as [fname [Hf Hin]].
  exists root, dirs, files, fname.
  split; [exact Hw|]. split; [exact Hf|].
  now apply classify_origin.
Qed.

Lemma record_origin_witness :
  exists root dirs files fname,
    In (root, dirs, files) (Example.os_walk (Example.expanduser "~/data"))
    /\ In fname files
    /\ has_file_allowed_extension fname IMG_EXTENSIONS = true
    /\ "/home/u/data/x/True/img001.PNG" = Py.path_join root fname
    /\ Py.contains "True" root = true.
Proof.
  destruct (record_origin Example.expanduser Example.os_walk "~/data"
              IMG_EXTENSIONS
              (mk_record "/home/u/data/x/True/img001.PNG"
                         "/home/u/data/y/True/img001.PNG" 2))
    as (root & dirs & files & fname & Hw & Hf & He & Hp & _ & _ & H2 & _).
  - vm_compute. right. left. reflexivity.
  - exists root, dirs, files, fname. repeat split; trivial.
    now apply H2.
Defined.

(** X2: discovery yields one record for each qualifying file (allowed
    extension, directory path with [background] or [x]) and nothing else, in
    the order of the walk: the input paths of the records are the joined
    paths of the qualifying files, directory after directory and file after
    file; so the number of records is the number of qualifying files. *)
Theorem records_follow_walk_order :
  forall expanduser os_walk dir extensions,
    let kept :=
      flat_map
        (fun item : walk_item =>
           let '(root, _, files) := item in
           map (Py.path_join root) (filter (qualifies extensions root) files))
        (os_walk (expanduser dir)) in
    map input_path (make_dataset expanduser os_walk dir extensions) = kept
    /\ List.length (make_dataset expanduser os_walk dir extensions)
       = List.length kept.
Proof.
  intros expanduser os_walk dir extensions kept.
  assert (H : map input_path (make_dataset expanduser os_walk dir extensions)
              = kept).
  { unfold make_dataset, kept. rewrite map_flat_map.
    apply flat_map_ext. intros [[root dirs] files].
    rewrite map_flat_map.
    rewrite (flat_map_ext _ _ (classify_input_paths extensions root)).
    apply flat_map_filter. }
  split; [exact H|]. now rewrite <- H, length_map.
Qed.

Section LoaderFacts.

Variable expanduser : string -> string.
Variable os_walk : string -> list walk_item.

Lemma in_make_dataset (dir : string) (extensions : list string)
    (r : sample_record) :
  In r (make_dataset expanduser os_walk dir extensions)
  <-> exists root dirs files fname,
        In (root, dirs, files) (os_walk (expanduser dir))
        /\ In fname files
        /\ In r (classify extensions root fname).
Proof.
  unfold make_dataset. rewrite in_flat_map. split.
  - intros [[[root dirs] files] [Hw Hin]].
    apply in_flat_map in Hin as [fname [Hf Hin]].
    now exists root, dirs, files, fname.
  - intros (root & dirs & files & fname & Hw & Hf & Hin).
    exists (root, dirs, files). split; [exact Hw|].
    apply in_flat_map. now exists fname.
Qed.

Lemma classify_target_has_y (extensions : list string) (root fname : string)
    (r : sample_record) :
  Py.startswith fname Py.sep = false ->
  In r (classify extensions root fname) ->
  target_path r = EMPTY \/ Py.contains "y" (target_path r) = true.
Proof.
  intros Hs. unfold classify.
  destruct (has_file_allowed_extension fname extensions
            && Py.contains "background" root).
  - intros [<- | []]. now left.
  - destruct (has_file_allowed_extension fname extensions
              && Py.contains "x" root) eqn:Hx; [|contradiction].
    apply andb_true_iff in Hx as [_ Hx].
    assert (Hy : Py.contains "y"
                   (Py.replace "x" "y" (Py.path_join root fname)) = true).
    { rewrite PyFacts.replace_x_y. apply contains_y_after_replace.
      now apply join_keeps_x. }
    destruct (Py.contains "True" root); intros [<- | []]; now right.
Qed.

Lemma init_index_in root ld extensions p tr ds i px py :
  DatasetFolder_init expanduser os_walk root ld extensions p tr = Ok ds ->
  Py.index (samples ds) i = Ok (px, py) ->
  exists r,
    In r (make_dataset expanduser os_walk root extensions)
    /\ px = input_path r /\ py = target_path r
    /\ Py.index (classes ds) i = Ok (label r).
Proof.
  intros Hinit Hidx.
  destruct (init_fields _ _ _ _ _ _ _ _ Hinit) as (_ & _ & _ & Hs & Hc).
  rewrite Hs, index_map in Hidx. rewrite Hc, index_map.
  destruct (Py.index (make_dataset _ _ _ _) i) as [r|e] eqn:E;
    [|discriminate].
  injection Hidx as <- <-. exists r. repeat split.
  now apply index_Ok_In in E.
Qed.

Lemma make_dataset_no_extension (dir : string) :
  make_dataset expanduser os_walk dir [] = [].
Proof.
  unfold make_dataset.
  induction (os_walk (expanduser dir)) as [|[[root dirs] files] l IH];
    simpl; [reflexivity|].
  rewrite IH, app_nil_r.
  induction files as [|fname files IHf]; simpl; [reflexivity|].
  exact IHf.
Qed.

End LoaderFacts.

(** X3: with the default loader on the PIL backend and no transform, every
    sample that [__getitem__] returns has a single-channel target (mode
    [L]): the blank target is built so, and the target path of every other
    record holds a [y], which makes [pil_loader] convert to [L].  The file
    names of the walk are base names, as [os.walk] gives them. *)
Theorem target_is_single_channel :
  forall (rawimage : Type) open_image convert_L convert_RGB accimage_Image
         get_image_backend expanduser os_walk root p ds index s t a l,
    (forall dir dirs files fname,
        In (dir, dirs, files) (os_walk (expanduser root)) ->
        In fname files -> Py.startswith fname Py.sep = false) ->
    ImageFolderTrain_init expanduser os_walk root p None
      (default_loader rawimage open_image convert_L convert_RGB
                      accimage_Image get_image_backend)
    = Ok ds ->
    (get_image_backend =? "accimage") = false ->
    getitem ds index = Ok (s, t, a, l) ->
    mode_of t = L.
Proof.
  intros rawimage open_image convert_L convert_RGB accimage_Image
         get_image_backend expanduser os_walk root p ds index s t a l
         Hnames Hinit Hpil Hget.
  unfold ImageFolderTrain_init in Hinit.
  destruct (Py.index (samples ds) index) as [[px py]|e] eqn:Hidx;
    [|unfold getitem in Hget; rewrite Hidx in Hget; discriminate Hget].
  destruct (init_index_in _ _ _ _ _ _ _ _ _ _ _ Hinit Hidx)
    as (r & Hin & _ & Hpy & Hcls).
  apply in_make_dataset in Hin
    as (dir & dirs & files & fname & Hw & Hf & Hin).
  assert (Hy := classify_target_has_y _ _ _ _ (Hnames _ _ _ _ Hw Hf) Hin).
  rewrite <- Hpy in Hy.
  destruct (init_fields _ _ _ _ _ _ _ _ Hinit) as (Hl & Hps & Htr & _ & _).
  rewrite (getitem_indexed ds index px py (label r) Hidx Hcls) in Hget.
  rewrite Hl, Hps, Htr in Hget.
  destruct (default_loader _ _ _ _ _ _ px) as [s0|e]; simpl in Hget;
    [|discriminate Hget].
  destruct (py =? "empty") eqn:Hpe; simpl negb in Hget; cbv iota in Hget.
  - unfold blank_target in Hget.
    destruct (np_zeros p) as [z|e]; simpl in Hget; [|discriminate Hget].
    injection Hget as _ <- _ _. reflexivity.
  - destruct Hy as [He | Hy];
      [apply String.eqb_neq in Hpe; contradiction|].
    unfold default_loader in Hget. rewrite Hpil in Hget.
    unfold pil_loader in Hget. rewrite Hy in Hget.
    destruct (open_image py) as [raw|e]; simpl in Hget; [|discriminate Hget].
    destruct (convert_L raw) as [g|e]; simpl in Hget; [|discriminate Hget].
    injection Hget as _ <- _ _. reflexivity.
Qed.

Lemma target_is_single_channel_witness :
  mode_of (ImgL [[0; 0]; [0; 255]]%Z) = L.
Proof.
  apply (target_is_single_channel
           image Example.open_image Example.convert_L Example.convert_RGB
           Example.accimage_Image Example.get_image_backend
           Example.expanduser Example.os_walk "~/data" 2%Z
           (Example.ds None) 0%Z
           (ImgRGB [[(10, 20, 30); (0, 0, 0)]; [(0, 0, 0); (40, 50, 60)]]%Z)
           (ImgL [[0; 0]; [0; 255]]%Z) (Fin (2 # 4)) 1%Z).
  - intros dir dirs files fname Hw Hf. vm_compute in Hw.
    repeat (destruct Hw as [Hw | Hw];
            [injection Hw as <- <- <-; simpl in Hf;
             repeat (destruct Hf as [<- | Hf]; [reflexivity|]);
             contradiction|]).
    contradiction.
  - reflexivity.
  - reflexivity.
  - reflexivity.
Defined.

(** X4: a failure of the loader or of the transform reaches the caller as
    it is: when the input image fails to load, [__getitem__] raises that
    exception; when the input loads and the target file fails, it raises the
    target's exception; when both load and the transform raises, it raises
    the transform's exception.  No sample is returned in any of the three
    cases. *)
Theorem getitem_propagates_failures :
  forall expanduser os_walk root ld extensions p tr ds index px py,
    DatasetFolder_init expanduser os_walk root ld extensions p tr = Ok ds ->
    Py.index (samples ds) index = Ok (px, py) ->
    (forall e, ld px = Raise e -> getitem ds index = Raise e)
    /\ (forall s0 e,
           ld px = Ok s0 -> py <> EMPTY -> ld py = Raise e ->
           getitem ds index = Raise e)
    /\ (forall s0 t0 f e,
           tr = Some f -> ld px = Ok s0 ->
           (if py =? EMPTY then blank_target p else ld py) = Ok t0 ->
           f s0 t0 = Raise e ->
           getitem ds index = Raise e).
Proof.
  intros expanduser os_walk root ld extensions p tr ds index px py
         Hinit Hidx.
  destruct (init_index _ _ _ _ _ _ _ _ _ _ _ Hinit Hidx)
    as (r & _ & _ & _ & Hcls).
  destruct (init_fields _ _ _ _ _ _ _ _ Hinit) as (Hl & Hps & Htr & _ & _).
  assert (Hget := getitem_indexed ds index px py (label r) Hidx Hcls).
  rewrite Hl, Hps, Htr in Hget. change "empty" with EMPTY in Hget.
  split; [|split].
  - intros e He. now rewrite Hget, He.
  - intros s0 e Hs Hne He. apply String.eqb_neq in Hne.
    now rewrite Hget, Hs, Hne, He.
  - intros s0 t0 f e -> Hs Ht Hf. rewrite Hget, Hs. simpl.
    destruct (py =? EMPTY); simpl; rewrite Ht; simpl; now rewrite Hf.
Qed.

Lemma getitem_propagates_failures_witness :
  getitem (mk_DatasetFolder "~/data" (fun _ => Raise (OtherError "decode"))
             IMG_EXTENSIONS [1; 2; 0]%Z (samples (Example.ds None)) 2 None) 1
  = Raise (OtherError "decode").
Proof.
  apply (proj1 (getitem_propagates_failures
                  Example.expanduser Example.os_walk "~/data"
                  (fun _ => Raise (OtherError "decode")) IMG_EXTENSIONS 2%Z
                  None _ 1%Z "/home/u/data/x/True/img001.PNG"
                  "/home/u/data/y/True/img001.PNG" eq_refl eq_refl)).
  reflexivity.
Defined.

(** X5: the constructor does not look at [patch_size]; with a negative
    patch size the dataset is built, and [__getitem__] then raises
    [ValueError] on every record whose target is the sentinel, once its
    input image has loaded, whether or not a transform is configured. *)
Theorem negative_patch_size_fails_late :
  forall expanduser os_walk root ld extensions p tr ds index px s,
    DatasetFolder_init expanduser os_walk root ld extensions p tr = Ok ds ->
    (p < 0)%Z ->
    Py.index (samples ds) index = Ok (px, EMPTY) ->
    ld px = Ok s ->
    getitem ds index = Raise ValueError.
Proof.
  intros expanduser os_walk root ld extensions p tr ds index px s
         Hinit Hp Hidx Hs.
  destruct (init_index _ _ _ _ _ _ _ _ _ _ _ Hinit Hidx)
    as (r & _ & _ & _ & Hcls).
  destruct (init_fields _ _ _ _ _ _ _ _ Hinit) as (Hl & Hps & Htr & _ & _).
  rewrite (getitem_indexed ds index px EMPTY (label r) Hidx Hcls).
  rewrite Hl, Hps, Hs. simpl.
  unfold blank_target, np_zeros.
  assert (Hlt : (p <? 0)%Z = true) by now apply Z.ltb_lt.
  now rewrite Hlt.
Qed.

Lemma negative_patch_size_fails_late_witness :
  getitem (mk_DatasetFolder "~/data" Example.load IMG_EXTENSIONS
             [1; 2; 0]%Z (samples (Example.ds None)) (-1)
             (Some Example.hflip)) 2
  = Raise ValueError.
Proof.
  apply (negative_patch_size_fails_late
           Example.expanduser Example.os_walk "~/data" Example.load
           IMG_EXTENSIONS (-1)%Z (Some Example.hflip) _ 2%Z
           "/home/u/data/background/sky.png"
           (ImgL [[8%Z]]) eq_refl ltac:(lia) eq_refl eq_refl).
Defined.

(** X6: a dataset that was built is never empty: [__len__] is positive,
    equals the number of qualifying files of the walk, and the lists of
    classes and of samples have that same length. *)
Theorem len_counts_qualifying_files :
  forall expanduser os_walk root ld extensions p tr ds,
    DatasetFolder_init expanduser os_walk root ld extensions p tr = Ok ds ->
    (0 < len ds)%nat
    /\ List.length (classes ds) = len ds
    /\ len ds
       = List.length
           (flat_map
              (fun item : walk_item =>
                 let '(dir, _, files) := item in
                 filter (qualifies extensions dir) files)
              (os_walk (expanduser root))).
Proof.
  intros expanduser os_walk root ld extensions p tr ds Hinit.
  destruct (init_fields _ _ _ _ _ _ _ _ Hinit) as (_ & _ & _ & Hs & Hc).
  unfold len. rewrite Hs, Hc, !length_map.
  split; [|split; [reflexivity|]].
  - unfold DatasetFolder_init in Hinit.
    destruct (make_dataset expanduser os_walk root extensions);
      [discriminate Hinit | simpl; lia].
  - unfold make_dataset.
    induction (os_walk (expanduser root)) as [|[[dir dirs] files] w IH];
      simpl; [reflexivity|].
    rewrite !length_app, IH. f_equal.
    rewrite <- (length_map input_path), map_flat_map.
    rewrite (flat_map_ext _ _ (classify_input_paths extensions dir)).
    now rewrite flat_map_filter, length_map.
Qed.

Lemma len_counts_qualifying_files_witness :
  len (Example.ds None) = 3%nat.
Proof.
  rewrite (proj2 (proj2 (len_counts_qualifying_files
                           Example.expanduser Example.os_walk "~/data"
                           Example.load IMG_EXTENSIONS 2%Z None
                           (Example.ds None) eq_refl))).
  reflexivity.
Defined.

(** X7: the default image filter accepts a name whatever the letter case of
    its extension: a name that ends with an entry of [IMG_EXTENSIONS]
    written in any mix of capitals and small letters is an image file. *)
Theorem is_image_file_any_case :
  forall stem ext written,
    In ext IMG_EXTENSIONS ->
    Py.lower written = ext ->
    is_image_file (stem ++ written) = true.
Proof.
  intros stem ext written Hin Hw.
  unfold is_image_file. apply has_ext_iff.
  exists ext. split; [exact Hin|].
  exists (Py.lower stem). now rewrite PyFacts.lower_app, Hw.
Qed.

Lemma is_image_file_any_case_witness :
  is_image_file ("Scan_01" ++ ".JpEg") = true.
Proof.
  apply (is_image_file_any_case "Scan_01" ".jpeg" ".JpEg").
  - simpl. tauto.
  - reflexivity.
Defined.

(** X8: with an empty list of extensions no file qualifies, so construction
    fails on every directory tree, with the message that names the root and
    an empty list of supported extensions. *)
Theorem no_extension_no_dataset :
  forall expanduser os_walk root ld p tr,
    make_dataset expanduser os_walk root [] = []
    /\ DatasetFolder_init expanduser os_walk root ld [] p tr
       = Raise (RuntimeError
                  ("Found 0 files in subfolders of: " ++ root ++ Py.nl
                   ++ "Supported extensions are: ")).
Proof.
  intros expanduser os_walk root ld p tr.
  split; [apply make_dataset_no_extension|].
  unfold DatasetFolder_init. rewrite make_dataset_no_extension. reflexivity.
Qed.

(** * Scoring predictions *)

(** ** The order of [sorted] *)

Section Orders.

Lemma lex_eq {A : Type} (cmp : A -> A -> comparison) (ok : order_ok cmp)
    (a b : A) (t : comparison) :
  lex (cmp a b) t = Eq -> a = b /\ t = Eq.
Proof.
  destruct (cmp a b) eqn:E; simpl; try discriminate.
  intros ->. split; [now apply (cmp_eq cmp ok) | reflexivity].
Qed.

Lemma lex_antisym {A : Type} (cmp : A -> A -> comparison) (ok : order_ok cmp)
    (a b : A) (t t' : comparison) :
  t = CompOpp t' -> lex (cmp a b) t = CompOpp (lex (cmp b a) t').
Proof.
  intros ->. rewrite (cmp_antisym cmp ok a b).
  now destruct (cmp b a).
Qed.

Lemma cmp_refl {A : Type} (cmp : A -> A -> comparison) (ok : order_ok cmp)
    (a : A) : cmp a a = Eq.
Proof.
  assert (H := cmp_antisym cmp ok a a).
  destruct (cmp a a); simpl in H; try discriminate; reflexivity.
Qed.

Lemma lex_trans {A : Type} (cmp : A -> A -> comparison) (ok : order_ok cmp)
    (a b c : A) (t12 t23 t13 : comparison) :
  (t12 = Lt -> t23 = Lt -> t13 = Lt) ->
  lex (cmp a b) t12 = Lt -> lex (cmp b c) t23 = Lt ->
  lex (cmp a c) t13 = Lt.
Proof.
  intros Ht.
  destruct (cmp a b) eqn:E1; simpl; try discriminate;
    destruct (cmp b c) eqn:E2; simpl; try discriminate; intros H1 H2.
  - apply (cmp_eq cmp ok) in E1, E2. subst b c.
    rewrite (cmp_refl cmp ok). simpl. now apply Ht.
  - apply (cmp_eq cmp ok) in E1. subst b. now rewrite E2.
  - apply (cmp_eq cmp ok) in E2. subst c. now rewrite E1.
  - now rewrite (cmp_trans cmp ok a b c E1 E2).
Qed.

Lemma ascii_order : order_ok Ascii.compare.
Proof.
  split.
  - apply Ascii.compare_eq_iff.
  - apply Ascii.compare_antisym.
  - unfold Ascii.compare. intros a b c H1 H2.
    apply N.compare_lt_iff in H1. apply N.compare_lt_iff in H2.
    apply N.compare_lt_iff. now apply N.lt_trans with (N_of_ascii b).
Qed.

Lemma string_order : order_ok String.compare.
Proof.
  split.
  - apply String.compare_eq_iff.
  - apply String.compare_antisym.
  - intros a. induction a as [|x a IH]; intros [|y b] [|z c];
      simpl; try discriminate; try reflexivity.
    apply (lex_trans Ascii.compare ascii_order x y z). apply IH.
Qed.

Lemma list_order : order_ok Py.list_compare.
Proof.
  split.
  - intros a. induction a as [|x a IH]; intros [|y b]; simpl;
      try discriminate; [reflexivity|].
    intros H. apply (lex_eq String.compare string_order) in H as [-> H].
    now rewrite (IH b H).
  - intros a. induction a as [|x a IH]; intros [|y b]; simpl;
      try reflexivity.
    apply (lex_antisym String.compare string_order). apply IH.
  - intros a. induction a as [|x a IH]; intros [|y b] [|z c];
      simpl; try discriminate; try reflexivity.
    apply (lex_trans String.compare string_order x y z). apply IH.
Qed.

Lemma tuple_compare_lex (r1 r2 : string) (d1 d2 f1 f2 : list string) :
  Py.tuple_compare (r1, d1, f1) (r2, d2, f2)
  = lex (String.compare r1 r2)
        (lex (Py.list_compare d1 d2) (Py.list_compare f1 f2)).
Proof.
  simpl. destruct (String.compare r1 r2); [|reflexivity|reflexivity].
  simpl. now destruct (Py.list_compare d1 d2).
Qed.

Lemma tuple_order : order_ok Py.tuple_compare.
Proof.
  split.
  - intros [[r1 d1] f1] [[r2 d2] f2]. rewrite tuple_compare_lex. intros H.
    apply (lex_eq String.compare string_order) in H as [-> H].
    apply (lex_eq Py.list_compare list_order) in H as [-> H].
    now rewrite (cmp_eq _ list_order _ _ H).
  - intros [[r1 d1] f1] [[r2 d2] f2]. rewrite !tuple_compare_lex.
    apply (lex_antisym String.compare string_order).
    apply (lex_antisym Py.list_compare list_order).
    apply (cmp_antisym _ list_order).
  - intros [[r1 d1] f1] [[r2 d2] f2] [[r3 d3] f3].
    rewrite !tuple_compare_lex.
    apply (lex_trans String.compare string_order).
    apply (lex_trans Py.list_compare list_order).
    apply (cmp_trans _ list_order).
Qed.

Lemma tuple_le_total (a b : walk_item) : tuple_le a b \/ tuple_le b a.
Proof.
  unfold tuple_le, Py.tuple_ltb.
  rewrite (cmp_antisym _ tuple_order a b).
  destruct (Py.tuple_compare b a); simpl; auto.
Qed.

Lemma tuple_le_trans (a b c : walk_item) :
  tuple_le a b -> tuple_le b c -> tuple_le a c.
Proof.
  unfold tuple_le, Py.tuple_ltb. intros H1 H2.
  destruct (Py.tuple_compare c a) eqn:Hca; try reflexivity.
  destruct (Py.tuple_compare a b) eqn:Hab.
  - apply (cmp_eq _ tuple_order) in Hab. subst b. now rewrite Hca in H2.
  - rewrite (cmp_trans _ tuple_order c a b Hca Hab) in H2. discriminate.
  - rewrite (cmp_antisym _ tuple_order b a), Hab in H1. discriminate.
Qed.

End Orders.

Section SortedFacts.

Lemma insert_sorted_perm (x : walk_item) (l : list walk_item) :
  Permutation (x :: l) (Py.insert_sorted x l).
Proof.
  induction l as [|y l IH]; simpl; [reflexivity|].
  destruct (Py.tuple_ltb y x); [|reflexivity].
  rewrite perm_swap. now apply perm_skip.
Qed.

Lemma sorted_perm (l : list walk_item) : Permutation l (Py.sorted l).
Proof.
  induction l as [|x l IH]; simpl; [reflexivity|].
  rewrite <- insert_sorted_perm. now apply perm_skip.
Qed.

Lemma insert_sorted_ordered (x : walk_item) (l : list walk_item) :
  StronglySorted tuple_le l -> StronglySorted tuple_le (Py.insert_sorted x l).
Proof.
  induction 1 as [|y l Hs IH Hy]; simpl.
  - constructor; constructor.
  - destruct (Py.tuple_ltb y x) eqn:E.
    + constructor; [exact IH|].
      apply (Permutation_Forall (insert_sorted_perm x l)).
      constructor; [|exact Hy].
      destruct (tuple_le_total y x) as [H|H]; [exact H|].
      unfold tuple_le in H. congruence.
    + constructor; [now constructor|].
      constructor; [exact E|].
      eapply Forall_impl; [|exact Hy].
      intros z Hz. now apply tuple_le_trans with y.
Qed.

Lemma sorted_ordered (l : list walk_item) :
  StronglySorted tuple_le (Py.sorted l).
Proof.
  induction l as [|x l IH]; simpl; [constructor|].
  now apply insert_sorted_ordered.
Qed.

End SortedFacts.

(** ** [AUC] *)

Section StemFacts.
Import Py PyFacts.

Lemma string_app_assoc (a b c : string) :
  ((a ++ b) ++ c)%string = (a ++ (b ++ c))%string.
Proof. induction a as [|d a IH]; simpl; [reflexivity | now rewrite IH]. Qed.

Lemma substring_prefix (a b : string) :
  substring 0 (String.length a) (a ++ b) = a.
Proof.
  induction a as [|c a IH]; simpl; [now destruct b | now rewrite IH].
Qed.

Lemma stem_of_png (fname : string) :
  endswith fname ".png" = true ->
  fname = (slice_to_minus4 fname ++ ".png")%string.
Proof.
  intros H. apply endswith_iff in H as [a ->].
  unfold slice_to_minus4. rewrite length_app.
  replace (String.length a + String.length ".png" - 4)%nat
    with (String.length a) by (simpl; lia).
  now rewrite substring_prefix.
Qed.

Lemma mem_In (x : string) (l : list string) : mem x l = true <-> In x l.
Proof.
  unfold mem. rewrite existsb_exists. split.
  - intros [y [Hin Heq]]. apply String.eqb_eq in Heq. now subst.
  - intros Hin. exists x. split; [exact Hin | apply String.eqb_refl].
Qed.

Lemma selected_spec (pimlist : list string) (fname : string) :
  selected pimlist fname = true ->
  fname = (slice_to_minus4 fname ++ ".png")%string
  /\ (pimlist = [] \/ In (slice_to_minus4 fname) pimlist).
Proof.
  unfold selected. intros H. apply andb_true_iff in H as [Hpng Hin].
  split; [now apply stem_of_png|].
  apply orb_true_iff in Hin as [He | Hm].
  - left. now destruct pimlist.
  - right. now apply mem_In.
Qed.

Lemma join_under_directory (d fname : string) :
  startswith fname sep = false ->
  path_join (d ++ "/") fname = (d ++ "/" ++ fname)%string.
Proof.
  intros Hs. unfold path_join. rewrite Hs.
  replace (endswith (d ++ "/") sep) with true
    by (symmetry; apply endswith_app).
  rewrite orb_true_r. apply string_app_assoc.
Qed.

End StemFacts.

Section AUCFacts.

Variable os_walk : string -> list walk_item.
Variable array curve score : Type.
Variable imread : string -> result array.
Variable ravel : array -> array.
Variable roc_curve : array -> array -> Z -> result (curve * curve * curve).
Variable auc : curve -> curve -> result score.

Lemma for_each_Ok_iff {A B : Type} (f : A -> result B) (l : list A)
    (out : list B) :
  for_each f l = Ok out <-> Forall2 (fun a b => f a = Ok b) l out.
Proof.
  revert out. induction l as [|a l IH]; intros out; simpl.
  - split.
    + intros [= <-]. constructor.
    + intros H. inversion H. reflexivity.
  - split.
    + destruct (f a) as [b|e] eqn:Ha; simpl; [|discriminate].
      destruct (for_each f l) as [bs|e] eqn:Hl; simpl; [|discriminate].
      intros [= <-]. constructor; [exact Ha | now apply IH].
    + intros H. inversion H as [|a' b l' bs Ha Hl]; subst.
      rewrite Ha. simpl. apply IH in Hl. rewrite Hl. reflexivity.
Qed.

Lemma Forall2_map_l {A B C : Type} (g : A -> B) (R : B -> C -> Prop)
    (l : list A) (out : list C) :
  Forall2 R (map g l) out <-> Forall2 (fun a c => R (g a) c) l out.
Proof.
  revert out. induction l as [|a l IH]; intros out; simpl; split; intros H;
    inversion H; subst; constructor; auto; now apply IH.
Qed.

Lemma Forall2_In_l {A B : Type} (R : A -> B -> Prop) (l : list A)
    (out : list B) (a : A) :
  Forall2 R l out -> In a l -> exists b, In b out /\ R a b.
Proof.
  induction 1 as [|x y l out Hxy _ IH]; intros Hin; [contradiction|].
  destruct Hin as [->|Hin].
  - exists y. split; [now left | exact Hxy].
  - destruct (IH Hin) as [b [Hb HR]]. exists b. split; [now right | exact HR].
Qed.

Lemma Forall2_In_r {A B : Type} (R : A -> B -> Prop) (l : list A)
    (out : list B) (b : B) :
  Forall2 R l out -> In b out -> exists a, In a l /\ R a b.
Proof.
  induction 1 as [|x y l out Hxy _ IH]; intros Hin; [contradiction|].
  destruct Hin as [->|Hin].
  - exists x. split; [now left | exact Hxy].
  - destruct (IH Hin) as [a [Ha HR]]. exists a. split; [now right | exact HR].
Qed.

Lemma Forall2_fst {A B : Type} (R : A -> B -> Prop) (l : list A)
    (out : list (A * B)) :
  Forall2 (fun a e => fst e = a /\ R a (snd e)) l out -> map fst out = l.
Proof.
  induction 1 as [|a e l out [He _] _ IH]; simpl; [reflexivity|].
  now rewrite He, IH.
Qed.

(** The score of one entry of [imlist]. *)
Lemma body_Ok_iff (pathA pathB pathmask fname : string)
    (e : string * score) :
  (GT <- imread pathB ;;
   mask <- imread pathmask ;;
   ' (fpr, tpr, thresholds) <- roc_curve (ravel GT) (ravel mask) 255%Z ;;
   sc <- auc fpr tpr ;;
   Ok (fname, sc)) = Ok e
  <-> fst e = fname
      /\ scored imread ravel roc_curve auc pathB pathmask (snd e).
Proof.
  unfold scored. split.
  - destruct (imread pathB) as [GT|x] eqn:H1; simpl; [|discriminate].
    destruct (imread pathmask) as [mask|x] eqn:H2; simpl; [|discriminate].
    destruct (roc_curve (ravel GT) (ravel mask) 255%Z)
      as [[[fpr tpr] thr]|x] eqn:H3; simpl; [|discriminate].
    destruct (auc fpr tpr) as [sc|x] eqn:H4; simpl; [|discriminate].
    intros [= <-]. split; [reflexivity|].
    now exists GT, mask, fpr, tpr, thr.
  - intros [Hf (GT & mask & fpr & tpr & thr & H1 & H2 & H3 & H4)].
    rewrite H1. simpl. rewrite H2. simpl. rewrite H3. simpl.
    rewrite H4. simpl. destruct e as [n sc]. simpl in *. now subst.
Qed.

Lemma AUC_Ok_iff (root name : string) (pimlist : list string)
    (out : list (string * score)) :
  AUC os_walk array curve score imread ravel roc_curve auc root name pimlist
  = Ok out
  <-> Forall2
        (fun fname e =>
           fst e = fname
           /\ scored imread ravel roc_curve auc
                (Py.path_join (root ++ "/B/") fname)
                (Py.path_join (root ++ "/res/" ++ name ++ "/") fname)
                (snd e))
        (selected_names os_walk (root ++ "/res/" ++ name ++ "/") pimlist)
        out.
Proof.
  unfold AUC, selected_names.
  set (res := (root ++ "/res/" ++ name ++ "/")%string).
  set (g := fun fname : string =>
              (Py.path_join (root ++ "/A/") fname,
               Py.path_join (root ++ "/B/") fname,
               Py.path_join res fname, fname)).
  assert (Hl : flat_map
                 (fun item : walk_item =>
                    let '(_, _, fnames) := item in
                    flat_map
                      (fun fname =>
                         if Py.endswith fname ".png" then
                           if Py.is_empty pimlist
                              || Py.mem (Py.slice_to_minus4 fname) pimlist
                           then [g fname] else []
                         else [])
                      fnames)
                 (Py.sorted (os_walk res))
               = map g
                   (flat_map
                      (fun item : walk_item =>
                         let '(_, _, fnames) := item in
                         filter (selected pimlist) fnames)
                      (Py.sorted (os_walk res)))).
  { rewrite map_flat_map. apply flat_map_ext. intros [[d ds] fnames].
    rewrite <- flat_map_filter. apply flat_map_ext. intros fname.
    unfold selected. now destruct (Py.endswith fname ".png"),
      (Py.is_empty pimlist || Py.mem (Py.slice_to_minus4 fname) pimlist). }
  unfold g in Hl. rewrite Hl. rewrite for_each_Ok_iff, Forall2_map_l.
  split; intros H; (eapply Forall2_impl; [|exact H]);
    intros fname e He; now apply body_Ok_iff.
Qed.

Lemma selected_names_in_walk (dir : string) (pimlist : list string)
    (fname : string) :
  In fname (selected_names os_walk dir pimlist) ->
  selected pimlist fname = true
  /\ exists d ds fnames, In (d, ds, fnames) (os_walk dir) /\ In fname fnames.
Proof.
  unfold selected_names. intros H.
  apply in_flat_map in H as [[[d ds] fnames] [Hw Hf]].
  apply filter_In in Hf as [Hf Hs]. split; [exact Hs|].
  exists d, ds, fnames. split; [|exact Hf].
  apply (Permutation_in _ (Permutation_sym (sorted_perm (os_walk dir)))).
  exact Hw.
Qed.

End AUCFacts.

(** X10: [AUC] returns a list exactly when every selected file can be
    scored, and the list then holds, in the order of the sorted walk, one
    pair for each selected file: its name and the score of the prediction
    read from the result directory against the ground truth read from
    [root/B/]. *)
Theorem AUC_scores_every_selected_file :
  forall os_walk (array curve score : Type) imread ravel roc_curve auc
         root name pimlist (out : list (string * score)),
    AUC os_walk array curve score imread ravel roc_curve auc root name pimlist
    = Ok out
    <-> Forall2
          (fun fname e =>
             fst e = fname
             /\ scored imread ravel roc_curve auc
                  (Py.path_join (root ++ "/B/") fname)
                  (Py.path_join (root ++ "/res/" ++ name ++ "/") fname)
                  (snd e))
          (selected_names os_walk (root ++ "/res/" ++ name ++ "/") pimlist)
          out.
Proof. intros. apply AUC_Ok_iff. Qed.

(** X11: the names that [AUC] returns are the selected names: each one
    ends in [.png], written in small letters, and is [stem.png] for its
    stem; when a list of stems is given, the stem of every returned name is
    in that list. *)
Theorem AUC_names_are_selected :
  forall os_walk (array curve score : Type) imread ravel roc_curve auc
         root name pimlist (out : list (string * score)),
    AUC os_walk array curve score imread ravel roc_curve auc root name pimlist
    = Ok out ->
    map fst out
    = selected_names os_walk (root ++ "/res/" ++ name ++ "/") pimlist
    /\ Forall
         (fun fname =>
            Py.endswith fname ".png" = true
            /\ exists stem,
                 fname = (stem ++ ".png")%string
                 /\ (pimlist = [] \/ In stem pimlist))
         (map fst out).
Proof.
  intros os_walk array curve score imread ravel roc_curve auc
         root name pimlist out H.
  apply AUC_Ok_iff in H.
  apply (Forall2_fst
           (fun fname sc =>
              scored imread ravel roc_curve auc
                (Py.path_join (root ++ "/B/") fname)
                (Py.path_join (root ++ "/res/" ++ name ++ "/") fname) sc))
    in H.
  split; [exact H|]. rewrite H. apply Forall_forall. intros fname Hin.
  apply selected_names_in_walk in Hin as [Hs _].
  split.
  - unfold selected in Hs. now apply andb_true_iff in Hs as [Hs _].
  - exists (Py.slice_to_minus4 fname). now apply selected_spec.
Qed.

Lemma AUC_names_are_selected_witness :
  map fst [("b.png", 1%Z)]
  = selected_names ExampleScores.os_walk "/exp/res/unet/" ["b"; "zz"].
Proof.
  apply (AUC_names_are_selected
           ExampleScores.os_walk (list Z) (list Z) Z ExampleScores.imread
           ExampleScores.ravel ExampleScores.roc_curve ExampleScores.auc
           "/exp" "unet" ["b"; "zz"] [("b.png", 1%Z)]).
  reflexivity.
Defined.

(** X12: [AUC] pairs files by name only.  When the walk gives base names,
    the ground truth of a returned name is read from [root/B/name] and the
    prediction from [root/res/<name of the run>/name], also for a file that
    the walk found in a subdirectory of the result directory. *)
Theorem AUC_reads_flat_paths :
  forall (os_walk : string -> list walk_item) (array curve score : Type)
         imread ravel roc_curve auc
         (root name : string) pimlist (out : list (string * score))
         fname sc,
    (forall d ds fnames f,
        In (d, ds, fnames) (os_walk (root ++ "/res/" ++ name ++ "/")%string) ->
        In f fnames -> Py.startswith f Py.sep = false) ->
    AUC os_walk array curve score imread ravel roc_curve auc root name pimlist
    = Ok out ->
    In (fname, sc) out ->
    scored imread ravel roc_curve auc
      (root ++ "/B/" ++ fname) (root ++ "/res/" ++ name ++ "/" ++ fname) sc.
Proof.
  intros os_walk array curve score imread ravel roc_curve auc
         root name pimlist out fname sc Hbase H Hin.
  apply AUC_Ok_iff in H.
  destruct (Forall2_In_r _ _ _ _ H Hin) as [f [Hf [Hname Hsc]]].
  cbn [fst snd] in Hname, Hsc. subst f.
  apply selected_names_in_walk in Hf as [_ (d & ds & fnames & Hw & Hf)].
  assert (Hs := Hbase d ds fnames fname Hw Hf).
  change (root ++ "/B/")%string with (root ++ "/B" ++ "/")%string in Hsc.
  rewrite <- (string_app_assoc root "/B" "/") in Hsc.
  rewrite (join_under_directory _ _ Hs) in Hsc.
  replace (root ++ "/res/" ++ name ++ "/")%string
    with ((root ++ "/res/" ++ name) ++ "/")%string in Hsc
    by now rewrite !string_app_assoc.
  rewrite (join_under_directory _ _ Hs) in Hsc.
  rewrite !string_app_assoc in Hsc. exact Hsc.
Qed.

Lemma AUC_reads_flat_paths_witness :
  scored ExampleScores.imread ExampleScores.ravel ExampleScores.roc_curve
         ExampleScores.auc "/exp/B/b.png" "/exp/res/unet/b.png" 1%Z.
Proof.
  apply (AUC_reads_flat_paths
           ExampleScores.os_walk (list Z) (list Z) Z ExampleScores.imread
           ExampleScores.ravel ExampleScores.roc_curve ExampleScores.auc
           "/exp" "unet" [] [("a.png", 4%Z); ("b.png", 1%Z)] "b.png" 1%Z).
  - intros d ds fnames f Hw Hf. vm_compute in Hw.
    repeat (destruct Hw as [Hw | Hw];
            [injection Hw as <- <- <-; simpl in Hf;
             repeat (destruct Hf as [<- | Hf]; [reflexivity|]);
             contradiction|]).
    contradiction.
  - reflexivity.
  - right. left. reflexivity.
Defined.

(** X13: [AUC] gives no partial list: when the ground truth or the
    prediction of one selected file cannot be read, the call raises and no
    score is returned for any file. *)
Theorem AUC_fails_when_unreadable :
  forall (os_walk : string -> list walk_item) (array curve score : Type)
         imread ravel roc_curve auc
         (root name : string) pimlist fname e,
    In fname
       (selected_names os_walk (root ++ "/res/" ++ name ++ "/") pimlist) ->
    imread (Py.path_join (root ++ "/B/") fname) = Raise e
    \/ imread (Py.path_join (root ++ "/res/" ++ name ++ "/") fname)
       = Raise e ->
    exists e',
      AUC os_walk array curve score imread ravel roc_curve auc
          root name pimlist
      = Raise e'.
Proof.
  intros os_walk array curve score imread ravel roc_curve auc
         root name pimlist fname e Hin Hfail.
  destruct (AUC os_walk array curve score imread ravel roc_curve auc
              root name pimlist) as [out|e'] eqn:H; [|now exists e'].
  apply AUC_Ok_iff in H.
  destruct (Forall2_In_l _ _ _ _ H Hin)
    as [b [_ [_ (GT & mask & _ & _ & _ & H1 & H2 & _)]]].
  destruct Hfail as [Hf | Hf]; congruence.
Qed.

Lemma AUC_fails_when_unreadable_witness :
  exists e',
    AUC ExampleScores.os_walk (list Z) (list Z) Z
        (fun p => if p =? "/exp/B/b.png" then Raise IOError
                  else ExampleScores.imread p)
        ExampleScores.ravel ExampleScores.roc_curve ExampleScores.auc
        "/exp" "unet" []
    = Raise e'.
Proof.
  apply (AUC_fails_when_unreadable
           ExampleScores.os_walk (list Z) (list Z) Z _
           ExampleScores.ravel ExampleScores.roc_curve ExampleScores.auc
           "/exp" "unet" [] "b.png" IOError).
  - vm_compute. right. left. reflexivity.
  - left. reflexivity.
Defined.

Section WalkOrder.

Lemma tuple_le_dir (a b : walk_item) :
  tuple_le a b -> dir_of a <> dir_of b ->
  dir_before (dir_files a) (dir_files b).
Proof.
  destruct a as [[r1 d1] f1], b as [[r2 d2] f2].
  unfold tuple_le, Py.tuple_ltb, dir_before, dir_of. simpl fst.
  rewrite tuple_compare_lex. intros Hle Hne.
  rewrite (cmp_antisym _ string_order r2 r1) in Hle.
  destruct (String.compare r1 r2) eqn:E; simpl in Hle;
    try reflexivity; try discriminate.
  apply (cmp_eq _ string_order) in E. contradiction.
Qed.

Lemma sorted_dirs_strict (l : list walk_item) :
  StronglySorted tuple_le l -> NoDup (map dir_of l) ->
  StronglySorted dir_before (map dir_files l).
Proof.
  induction 1 as [|a l Hs IH Ha]; intros Hnd; simpl; [constructor|].
  simpl in Hnd. inversion Hnd as [|x xs Hnotin Hnd']; subst.
  constructor; [now apply IH|].
  apply Forall_map. rewrite Forall_forall in Ha. apply Forall_forall.
  intros b Hb. apply tuple_le_dir; [now apply Ha|].
  intros Heq. apply Hnotin. rewrite Heq. now apply in_map.
Qed.

Lemma dir_before_irrefl (a : string * list string) : ~ dir_before a a.
Proof.
  unfold dir_before. rewrite (cmp_refl _ string_order). discriminate.
Qed.

Lemma strict_perm_unique (l1 l2 : list (string * list string)) :
  StronglySorted dir_before l1 -> StronglySorted dir_before l2 ->
  Permutation l1 l2 -> l1 = l2.
Proof.
  intros H1. revert l2.
  induction H1 as [|a l1 Hs1 IH Ha]; intros l2 H2 Hp.
  - apply Permutation_nil in Hp. now subst.
  - destruct H2 as [|b l2 Hs2 Hb].
    + symmetry in Hp. apply Permutation_nil in Hp. discriminate.
    + assert (Hab : a = b).
      { assert (Hin1 : In a (b :: l2))
          by (apply (Permutation_in _ Hp); now left).
        assert (Hin2 : In b (a :: l1))
          by (apply (Permutation_in _ (Permutation_sym Hp)); now left).
        rewrite Forall_forall in Ha, Hb.
        destruct Hin1 as [->|Hin1]; [reflexivity|].
        destruct Hin2 as [->|Hin2]; [reflexivity|].
        exfalso. apply (dir_before_irrefl a). unfold dir_before.
        apply (cmp_trans _ string_order _ (fst b)).
        - now apply Ha.
        - now apply Hb. }
      subst b. f_equal. apply IH; [exact Hs2|].
      now apply Permutation_cons_inv with a.
Qed.

Lemma sorted_dir_files (w1 w2 : list walk_item) :
  NoDup (map dir_of w1) ->
  Permutation (map dir_files w1) (map dir_files w2) ->
  map dir_files (Py.sorted w1) = map dir_files (Py.sorted w2).
Proof.
  intros Hnd Hp.
  assert (Hk : Permutation (map dir_of w1) (map dir_of w2)).
  { unfold dir_of. rewrite <- !(map_map dir_files fst).
    now apply Permutation_map. }
  apply strict_perm_unique.
  - apply sorted_dirs_strict; [apply sorted_ordered|].
    apply (Permutation_NoDup (Permutation_map dir_of (sorted_perm w1))).
    exact Hnd.
  - apply sorted_dirs_strict; [apply sorted_ordered|].
    apply (Permutation_NoDup (Permutation_map dir_of (sorted_perm w2))).
    apply (Permutation_NoDup Hk). exact Hnd.
  - rewrite <- (Permutation_map dir_files (sorted_perm w1)).
    rewrite <- (Permutation_map dir_files (sorted_perm w2)).
    exact Hp.
Qed.

Lemma flat_map_through {A B C : Type} (h : A -> B) (F : A -> list C)
    (l1 l2 : list A) :
  (forall a b, h a = h b -> F a = F b) ->
  map h l1 = map h l2 -> flat_map F l1 = flat_map F l2.
Proof.
  intros HF. revert l2.
  induction l1 as [|a l1 IH]; intros [|b l2] H; simpl in *;
    try discriminate; [reflexivity|].
  injection H as Hab Ht. now rewrite (HF a b Hab), (IH l2 Ht).
Qed.

End WalkOrder.

(** X14: [AUC] sorts the walk before it uses it, so its result does not
    depend on the order in which the directories are visited, nor on the
    lists of subdirectories that [os.walk] reports: two walks of the result
    directory that visit the same directories, each once, and report the
    same files in each, in the same order, give the same answer. *)
Theorem AUC_independent_of_walk_order :
  forall (os_walk os_walk' : string -> list walk_item)
         (array curve score : Type) imread ravel roc_curve auc
         (root name : string) pimlist,
    NoDup (map dir_of (os_walk (root ++ "/res/" ++ name ++ "/")%string)) ->
    Permutation
      (map dir_files (os_walk (root ++ "/res/" ++ name ++ "/")%string))
      (map dir_files (os_walk' (root ++ "/res/" ++ name ++ "/")%string)) ->
    AUC os_walk array curve score imread ravel roc_curve auc root name pimlist
    = AUC os_walk' array curve score imread ravel roc_curve auc
          root name pimlist.
Proof.
  intros os_walk os_walk' array curve score imread ravel roc_curve auc
         root name pimlist Hnd Hp.
  unfold AUC. f_equal.
  apply (flat_map_through dir_files).
  - intros [[r1 d1] f1] [[r2 d2] f2] H. simpl in H.
    injection H as _ <-. reflexivity.
  - now apply sorted_dir_files.
Qed.

Lemma AUC_independent_of_walk_order_witness :
  ExampleScores.run []
  = AUC ExampleScores.os_walk_topdown (list Z) (list Z) Z
        ExampleScores.imread ExampleScores.ravel ExampleScores.roc_curve
        ExampleScores.auc "/exp" "unet" [].
Proof.
  apply (AUC_independent_of_walk_order
           ExampleScores.os_walk ExampleScores.os_walk_topdown).
  - vm_compute. repeat constructor; simpl; intuition discriminate.
  - vm_compute. apply perm_swap.
Defined.
